(** * SQLiteVectorStore: a shallow embedding

    Source: llama_index/vector_stores/sqlite/base.py.

    The file embeds the class [SQLiteVectorStore] and the function
    [serialize_f32].  Python objects become records, methods become
    functions in a state-and-exception monad over the store object, and
    the two libraries the code drives (Python's [struct] and [sqlite3]
    with the vec0 virtual table) are modelled as far as the code uses
    them.  The class is a pydantic model: it declares the fields
    [stores_text], [embed_dim] and [connection_string] and the private
    attribute [_is_initialized], and no attribute [db].  An asynchronous
    method is its synchronous call-through. *)

From Stdlib Require Import ZArith String List Lia Bool.
From Stdlib Require Import Floats.SpecFloat.
From coqutil Require Import Byte Word.LittleEndianList.
Import ListNotations.

#[local] Open Scope string_scope.
#[local] Open Scope list_scope.
#[local] Open Scope Z_scope.

(** ** Python exceptions and results *)

(** The exception classes that the embedded code can raise. *)
Inductive exn : Type :=
| AttributeError (msg : string)
| TypeError (msg : string)
| ValueError (msg : string)
| NotImplementedError (msg : string)
| struct_error (msg : string)
| OperationalError (msg : string).

(** The outcome of a call: a value, or a raised exception. *)
Inductive Result (A : Type) : Type :=
| OK (a : A)
| Raise (e : exn).
Arguments OK {A} a.
Arguments Raise {A} e.

Definition bytes := list byte.

(** ** Floats and [struct.pack]

    A Python float is an IEEE-754 binary64 value: a signed zero, a signed
    infinity, a NaN with its sign and its fraction bits (52 of them, 23 in
    a binary32 value), or a finite number [(-1)^s * m * 2^e].
    [struct.pack] with the format character [f] and no byte-order prefix
    stores the C [float] obtained by the cast [(float)x], in the machine's
    byte order (little-endian here). *)
Module PyStruct.

Variant float : Type :=
| B754_zero (s : bool)
| B754_infinity (s : bool)
| B754_nan (s : bool) (payload : positive)
| B754_finite (s : bool) (m : positive) (e : Z).

(** The binary32 format: 24 bits of precision, exponent of infinity 128. *)
Definition prec32 : Z := 24.
Definition emax32 : Z := 128.

(** A value of the Standard Library's specification of floats, which has
    one NaN: the default quiet one. *)
Definition of_spec_float (x : spec_float) : float :=
  match x with
  | S754_zero s => B754_zero s
  | S754_infinity s => B754_infinity s
  | S754_nan => B754_nan false 4194304
  | S754_finite s m e => B754_finite s m e
  end.

(** The Python float of an integer literal, used to write examples. *)
Definition float_of_Z (n : Z) : float :=
  of_spec_float (binary_normalize 53 1024 n 0 false).

(** The fraction bits of the binary32 NaN that the cast makes of a
    binary64 NaN: the upper 23 of the 52 fraction bits, with the quiet bit
    (the uppermost) set. *)
Definition quiet_payload (payload : positive) : positive :=
  let upper := (Z.pos payload / 2 ^ 29) mod 2 ^ 23 in
  Z.to_pos (if 2 ^ 22 <=? upper then upper else upper + 2 ^ 22).

(** The C cast [(float)x]: a finite value is rounded to the nearest
    binary32 value, ties to even, and becomes an infinity beyond the
    binary32 range; a NaN keeps its sign and its upper fraction bits;
    no error is raised. *)
Definition double_to_single (x : float) : float :=
  match x with
  | B754_finite s m e => of_spec_float (binary_round prec32 emax32 s m e)
  | B754_nan s payload => B754_nan s (quiet_payload payload)
  | _ => x
  end.

Definition sign_bit (s : bool) : Z := if s then 1 else 0.

(** A sign, an 8-bit exponent field and a 23-bit fraction field, joined. *)
Definition join_bits (s : bool) (biased_exp frac : Z) : Z :=
  (sign_bit s * 2 ^ 8 + biased_exp) * 2 ^ 23 + frac.

(** The 32-bit pattern of a binary32 value. *)
Definition bits_of_single (x : float) : Z :=
  match x with
  | B754_zero s => join_bits s 0 0
  | B754_infinity s => join_bits s 255 0
  | B754_nan s payload => join_bits s 255 (Z.pos payload)
  | B754_finite s m e =>
      if Z.pos m <? 2 ^ 23
      then join_bits s 0 (Z.pos m)
      else join_bits s (e + 150) (Z.pos m - 2 ^ 23)
  end.

(** [np_float]: one [f] item of a native-format pack. *)
Definition np_float (x : float) : bytes :=
  le_split 4 (bits_of_single (double_to_single x)).

(** [struct.pack(f"{count}f", *args)]: [count] floats, one after
    another; the call raises [struct.error] when the number of
    arguments is not [count]. *)
Definition pack_f (count : nat) (args : list float) : Result bytes :=
  if Nat.eqb count (length args)
  then OK (flat_map np_float args)
  else Raise (struct_error "pack expected a different number of items").

End PyStruct.

(** ** [serialize_f32] *)

(** Serializes a list of floats into a compact raw-bytes format. *)
Definition serialize_f32 (vector : list PyStruct.float) : Result bytes :=
  PyStruct.pack_f (length vector) vector.

(** The [k]-th four-byte group of a byte string, and its first [n]
    groups. *)
Definition chunk4 (b : bytes) (k : nat) : bytes :=
  firstn 4 (skipn (4 * k) b).

Definition chunks4 (n : nat) (b : bytes) : list bytes :=
  map (chunk4 b) (seq 0 n).

(** ** The binary32 format of IEEE 754

    The reference against which the encoder is stated, written from the
    standard and not from the encoder: which values are binary32 values,
    which binary32 value is the nearest to a number, and which 32-bit word
    is the interchange pattern of a binary32 value. *)
Module IEEE754.

(** The binary32 values: a finite one has a mantissa of 24 bits at an
    exponent from -126 - 23 to 127 - 23, or a shorter mantissa at the
    least exponent; a NaN has 23 fraction bits, not all zero. *)
Definition is_binary32 (x : PyStruct.float) : bool :=
  match x with
  | PyStruct.B754_nan _ payload => Z.pos payload <? 2 ^ 23
  | PyStruct.B754_finite _ m e => bounded 24 128 m e
  | _ => true
  end.

(** The word [w] is the interchange pattern of the binary32 value [y]:
    bit 31 is the sign, bits 30 to 23 the biased exponent [E], bits 22 to
    0 the fraction [F]. *)
Definition pattern_of (y : PyStruct.float) (w : Z) : Prop :=
  0 <= w < 2 ^ 32 /\
  let E := (w / 2 ^ 23) mod 2 ^ 8 in
  let F := w mod 2 ^ 23 in
  match y with
  | PyStruct.B754_zero s => (2 ^ 31 <=? w) = s /\ E = 0 /\ F = 0
  | PyStruct.B754_infinity s => (2 ^ 31 <=? w) = s /\ E = 255 /\ F = 0
  | PyStruct.B754_nan s payload =>
      (2 ^ 31 <=? w) = s /\ E = 255 /\ F = Z.pos payload
  | PyStruct.B754_finite s m e =>
      (2 ^ 31 <=? w) = s /\
      ((E = 0 /\ F = Z.pos m /\ e = -149) \/
       (1 <= E <= 254 /\ 2 ^ 23 + F = Z.pos m /\ e = E - 150))
  end.

(** A finite value, as opposed to an infinity or a NaN. *)
Definition is_finite (x : PyStruct.float) : bool :=
  match x with
  | PyStruct.B754_zero _ | PyStruct.B754_finite _ _ _ => true
  | _ => false
  end.

Definition sign_of (x : PyStruct.float) : bool :=
  match x with
  | PyStruct.B754_zero s | PyStruct.B754_infinity s
  | PyStruct.B754_nan s _ | PyStruct.B754_finite s _ _ => s
  end.

(** The value of a finite float in units of [2^c], an integer when [c] is
    at most its exponent; zero for a zero. *)
Definition scaled (c : Z) (x : PyStruct.float) : Z :=
  match x with
  | PyStruct.B754_finite s m e => (if s then -1 else 1) * (Z.pos m * 2 ^ (e - c))
  | _ => 0
  end.

(** A unit in which [x] and all finite binary32 values are integers. *)
Definition unit_of (x : PyStruct.float) : Z :=
  match x with
  | PyStruct.B754_finite _ _ e => Z.min e (-149)
  | _ => -149
  end.

Definition even_mantissa (y : PyStruct.float) : bool :=
  match y with
  | PyStruct.B754_finite _ m _ => Z.even (Z.pos m)
  | _ => true
  end.

(** [y] is the binary32 value nearest to the finite [x]: a finite
    binary32 value of the sign of [x], no finite binary32 value is nearer
    to [x], and when another one is as near, [y] is the one of even
    mantissa. *)
Definition nearest_binary32 (x y : PyStruct.float) : Prop :=
  is_finite y = true /\ is_binary32 y = true /\ sign_of y = sign_of x /\
  forall z, is_finite z = true -> is_binary32 z = true ->
    let c := unit_of x in
    Z.abs (scaled c x - scaled c y) <= Z.abs (scaled c x - scaled c z) /\
    (Z.abs (scaled c x - scaled c y) = Z.abs (scaled c x - scaled c z) ->
     scaled c z <> scaled c y -> even_mantissa y = true).

(** The finite values beyond the binary32 range, which round to an
    infinity: those of magnitude [2^128 - 2^103] and more. *)
Definition beyond_range (x : PyStruct.float) : Prop :=
  (2 ^ 25 - 1) * 2 ^ (103 - unit_of x) <= Z.abs (scaled (unit_of x) x).

(** The rounding of a finite non-zero [x] to binary32 by IEEE 754: the
    infinity of its sign beyond the range, the nearest value within. *)
Definition rounds_to (x y : PyStruct.float) : Prop :=
  (beyond_range x /\ y = PyStruct.B754_infinity (sign_of x)) \/
  (~ beyond_range x /\ nearest_binary32 x y).

(** [y] is the conversion of [x] to binary32: a finite [x] is rounded; a
    NaN stays a NaN of the same sign, quiet, with the upper fraction bits
    of [x]; zeros and infinities stay. *)
Definition converts_to (x y : PyStruct.float) : Prop :=
  match x with
  | PyStruct.B754_finite _ _ _ => rounds_to x y
  | PyStruct.B754_nan s payload =>
      exists payload',
        y = PyStruct.B754_nan s payload' /\
        2 ^ 22 <= Z.pos payload' < 2 ^ 23 /\
        Z.pos payload' mod 2 ^ 22 = (Z.pos payload / 2 ^ 29) mod 2 ^ 22
  | _ => y = x
  end.

End IEEE754.

(** ** The decoder of the vector codec *)
Module VectorCodec.

Inductive error : Type := MalformedVectorError.

(** Modelled from the spec: the binary32 value of a 32-bit pattern, which
    [decode] needs and the source does not contain: sign, exponent field
    and fraction field, read back. *)
Definition single_of_bits (w : Z) : PyStruct.float :=
  let s := 2 ^ 31 <=? w in
  let biased_exp := (w / 2 ^ 23) mod 2 ^ 8 in
  let frac := w mod 2 ^ 23 in
  if biased_exp =? 0 then
    match frac with
    | Z.pos m => PyStruct.B754_finite s m (-149)
    | _ => PyStruct.B754_zero s
    end
  else if biased_exp =? 255 then
    match frac with
    | Z.pos payload => PyStruct.B754_nan s payload
    | _ => PyStruct.B754_infinity s
    end
  else
    match frac + 2 ^ 23 with
    | Z.pos m => PyStruct.B754_finite s m (biased_exp - 150)
    | _ => PyStruct.B754_zero s
    end.

(** Modelled from the spec: the loop of [decode], which reads [L] groups
    of four bytes, little-endian. *)
Fixpoint unpack_f (L : nat) (b : bytes) : list PyStruct.float :=
  match L with
  | O => []
  | S L' => single_of_bits (le_combine (firstn 4 b)) :: unpack_f L' (skipn 4 b)
  end.

(** Modelled from the spec: [decode], the inverse of the encoder, which
    the source does not contain.  It takes the bytes and the number [L]
    of components, fails with [MalformedVectorError] unless there are
    exactly [4*L] bytes, and otherwise reads [L] little-endian binary32
    values in order. *)
Definition decode (b : bytes) (L : nat) : error + list PyStruct.float :=
  if Nat.eqb (length b) (4 * L) then inr (unpack_f L b)
  else inl MalformedVectorError.

End VectorCodec.

(** ** The database connection

    What the code uses of Python's [sqlite3] module and of the vec0
    virtual table of the sqlite-vec extension.  The only table is
    [vec_items]; a connection keeps its declared vector width, its current
    rows and the rows as of the last commit. *)
Module sqlite3.

(** A row of [vec_items]. *)
Record row : Type := {
  id : Z;
  node_id : string;
  embedding : bytes;
  metadata_ : string;
  text : string
}.

Record Connection : Type := {
  database : string;            (* the argument of [connect] *)
  load_extension : bool;        (* set by [enable_load_extension] *)
  vec0_module : bool;           (* the extension is loaded *)
  vec_items : option Z;         (* the table's vector width, once created *)
  rows : list row;              (* current contents of the table *)
  committed : list row          (* contents as of the last commit *)
}.

Definition connect (database : string) : Connection :=
  {| database := database; load_extension := false; vec0_module := false;
     vec_items := None; rows := []; committed := [] |}.

Definition enable_load_extension (enabled : bool) (c : Connection) : Connection :=
  {| database := database c; load_extension := enabled;
     vec0_module := vec0_module c; vec_items := vec_items c;
     rows := rows c; committed := committed c |}.

Definition commit (c : Connection) : Connection :=
  {| database := database c; load_extension := load_extension c;
     vec0_module := vec0_module c; vec_items := vec_items c;
     rows := rows c; committed := rows c |}.

Definition rollback (c : Connection) : Connection :=
  {| database := database c; load_extension := load_extension c;
     vec0_module := vec0_module c; vec_items := vec_items c;
     rows := committed c; committed := committed c |}.

(** The two statements of the source. *)
Inductive statement : Type :=
| CREATE_VIRTUAL_TABLE_vec_items (embed_dim : Z)
| INSERT_INTO_vec_items (node_id : string) (embedding : bytes)
                        (metadata_ : string) (text : string).

(** A cursor keeps the row id of the last row that it inserted itself;
    the initial value is [None]. *)
Record Cursor : Type := { lastrowid : option Z }.

Definition cursor (c : Connection) : Cursor := {| lastrowid := None |}.

(** The key given to a new row: one more than the largest in the table. *)
Definition next_id (rs : list row) : Z :=
  1 + fold_right (fun r acc => Z.max (id r) acc) 0 rs.

(** [Cursor.execute].  The table is created without a transaction
    (it is committed at once); an insert changes the current rows only.
    The vec0 table has a width from 1 to 8192 and accepts an embedding of
    exactly [4 * width] bytes. *)
Definition Cursor_execute (cur : Cursor) (st : statement) (c : Connection)
  : Result Cursor * Connection :=
  match st with
  | CREATE_VIRTUAL_TABLE_vec_items d =>
      if negb (vec0_module c) then
        (Raise (OperationalError "no such module: vec0"), c)
      else match vec_items c with
      | Some _ => (Raise (OperationalError "table vec_items already exists"), c)
      | None =>
          if (0 <? d) && (d <=? 8192) then
            (OK cur,
             {| database := database c; load_extension := load_extension c;
                vec0_module := vec0_module c; vec_items := Some d;
                rows := rows c; committed := committed c |})
          else (Raise (OperationalError "vec0 constructor error"), c)
      end
  | INSERT_INTO_vec_items n e m t =>
      match vec_items c with
      | None => (Raise (OperationalError "no such table: vec_items"), c)
      | Some d =>
          if Z.of_nat (length e) =? 4 * d then
            let k := next_id (rows c) in
            (OK {| lastrowid := Some k |},
             {| database := database c; load_extension := load_extension c;
                vec0_module := vec0_module c; vec_items := vec_items c;
                rows := rows c ++ [{| id := k; node_id := n; embedding := e;
                                      metadata_ := m; text := t |}];
                committed := committed c |})
          else (Raise (OperationalError "Dimension mismatch for inserted vector"), c)
      end
  end.

(** [Connection.execute]: makes a cursor of its own, executes the
    statement on it and returns it. *)
Definition execute (st : statement) (c : Connection) : Result Cursor * Connection :=
  Cursor_execute (cursor c) st c.

End sqlite3.

Module sqlite_vec.

(** [sqlite_vec.load]: loads the extension, which registers the vec0
    module; refused while extension loading is disabled. *)
Definition load (c : sqlite3.Connection) : Result unit * sqlite3.Connection :=
  if sqlite3.load_extension c then
    (OK tt,
     {| sqlite3.database := sqlite3.database c;
        sqlite3.load_extension := sqlite3.load_extension c;
        sqlite3.vec0_module := true;
        sqlite3.vec_items := sqlite3.vec_items c;
        sqlite3.rows := sqlite3.rows c;
        sqlite3.committed := sqlite3.committed c |})
  else (Raise (OperationalError "not authorized"), c).

End sqlite_vec.

(** ** The store object *)

Record SQLiteVectorStore : Type := {
  stores_text : bool;
  embed_dim : Z;
  connection_string : string;
  _is_initialized : bool;
  db : option sqlite3.Connection      (* [None]: the object has no such attribute *)
}.

(** The constructor, with its defaults [":memory:"] and [1536]. *)
Definition __init__ (connection_string : string) (embed_dim : Z) : SQLiteVectorStore :=
  {| stores_text := true; embed_dim := embed_dim;
     connection_string := connection_string;
     _is_initialized := false; db := None |}.

Definition default_connection_string : string := ":memory:".
Definition default_embed_dim : Z := 1536.

(** A method: it runs on the object [self], may change it, and returns a
    value or raises. *)
Definition M (A : Type) : Type :=
  SQLiteVectorStore -> Result A * SQLiteVectorStore.

Definition ret {A} (a : A) : M A := fun self => (OK a, self).

Definition raise {A} (e : exn) : M A := fun self => (Raise e, self).

Definition bind {A B} (m : M A) (k : A -> M B) : M B :=
  fun self =>
    match m self with
    | (OK a, self') => k a self'
    | (Raise e, self') => (Raise e, self')
    end.

Notation "x <- m ;; k" := (bind m (fun x => k))
  (at level 61, m at next level, right associativity).
Notation "m ;;; k" := (bind m (fun _ => k))
  (at level 61, right associativity).

(** Reading an attribute of [self]. *)
Definition get {A} (attr : SQLiteVectorStore -> A) : M A :=
  fun self => (OK (attr self), self).

(** [self.db = c]: the class declares no attribute [db], and a pydantic
    model refuses the assignment. *)
Definition set_db (c : sqlite3.Connection) : M unit :=
  raise (ValueError "'SQLiteVectorStore' object has no field 'db'").

(** The connection object that [self.db] refers to has changed to [c];
    this is no assignment. *)
Definition mutate_db (c : sqlite3.Connection) : M unit :=
  fun self =>
    (OK tt,
     {| stores_text := stores_text self; embed_dim := embed_dim self;
        connection_string := connection_string self;
        _is_initialized := _is_initialized self; db := Some c |}).

(** [self._is_initialized = b]. *)
Definition set_is_initialized (b : bool) : M unit :=
  fun self =>
    (OK tt,
     {| stores_text := stores_text self; embed_dim := embed_dim self;
        connection_string := connection_string self;
        _is_initialized := b; db := db self |}).

(** [self.db]: [AttributeError] when the attribute was never set. *)
Definition get_db : M sqlite3.Connection :=
  fun self =>
    match db self with
    | Some c => (OK c, self)
    | None => (Raise (AttributeError "db"), self)
    end.

(** [self.db.f(...)]: a call that may change the connection object. *)
Definition call_db {A} (f : sqlite3.Connection -> Result A * sqlite3.Connection) : M A :=
  c <- get_db ;;
  match f c with
  | (r, c') => mutate_db c' ;;; (fun self => (r, self))
  end.

(** A connection method that cannot fail. *)
Definition total (f : sqlite3.Connection -> sqlite3.Connection)
  : sqlite3.Connection -> Result unit * sqlite3.Connection :=
  fun c => (OK tt, f c).

(** [with self.db: body]: the connection is committed when the body ends
    normally and rolled back when it raises. *)
Definition with_db {A} (body : M A) : M A :=
  _ <- get_db ;;
  fun self =>
    match body self with
    | (OK a, self') => (call_db (total sqlite3.commit) ;;; ret a) self'
    | (Raise e, self') => (call_db (total sqlite3.rollback) ;;; raise e) self'
    end.

(** [_initialize] *)
Definition _initialize : M unit :=
  initialized <- get _is_initialized ;;
  if negb initialized then
    set_db (sqlite3.connect ":memory:") ;;;
    call_db (total (sqlite3.enable_load_extension true)) ;;;
    call_db sqlite_vec.load ;;;
    call_db (total (sqlite3.enable_load_extension false)) ;;;
    d <- get embed_dim ;;
    call_db (sqlite3.execute (sqlite3.CREATE_VIRTUAL_TABLE_vec_items d)) ;;;
    set_is_initialized true
  else ret tt.

(** The property [client]. *)
Definition client : M (option sqlite3.Connection) :=
  initialized <- get _is_initialized ;;
  if negb initialized then ret None
  else c <- get_db ;; ret (Some c).

(** ** Nodes and the methods of the interface *)

(** What the code takes from other packages: the metadata mapping of a
    node with [json.dumps] (called with the separators [","] and [":"]),
    which raises for a mapping that is not JSON, the filter and query
    classes, and keyword arguments with the empty ones. *)
Class Packages : Type := {
  Metadata : Type;
  MetadataFilters : Type;
  VectorStoreQuery : Type;
  VectorStoreQueryResult : Type;
  Kwargs : Type;
  no_kwargs : Kwargs;
  json_dumps : Metadata -> Result string
}.

Section Methods.

Context {P : Packages}.

(** What [add] reads of a node.  An embedding is optional in the node
    class. *)
Record BaseNode : Type := {
  node_id : string;
  embedding : option (list PyStruct.float);
  metadata : Metadata;
  get_content : string
}.

Definition item : Type := string * option (list PyStruct.float) * string * string.

(** The tuple that [add] makes of a node. *)
Definition item_of (node : BaseNode) : Result item :=
  match json_dumps (metadata node) with
  | OK dumped => OK (node_id node, embedding node, dumped, get_content node)
  | Raise e => Raise e
  end.

(** The list [items] of [add]: the tuples of all nodes, made before the
    connection is touched; the first [json.dumps] that raises ends it. *)
Fixpoint items_of (nodes : list BaseNode) : Result (list item) :=
  match nodes with
  | [] => OK []
  | node :: rest =>
      match item_of node with
      | Raise e => Raise e
      | OK it =>
          match items_of rest with
          | Raise e => Raise e
          | OK its => OK (it :: its)
          end
      end
  end.

(** [serialize_f32(item[1])]: with no embedding, [len] raises. *)
Definition serialize_embedding (e : option (list PyStruct.float)) : Result bytes :=
  match e with
  | Some vector => serialize_f32 vector
  | None => Raise (TypeError "object of type 'NoneType' has no len()")
  end.

Definition lift {A} (r : Result A) : M A := fun self => (r, self).

(** The loop of [add]: the insert runs through [self.db.execute], the id
    is read from [cursor]. *)
Fixpoint add_loop (cursor : sqlite3.Cursor) (items : list item)
                  (ids : list (option Z)) : M (list (option Z)) :=
  match items with
  | [] => ret ids
  | (item0, item1, item2, item3) :: rest =>
      blob <- lift (serialize_embedding item1) ;;
      call_db (sqlite3.execute
                 (sqlite3.INSERT_INTO_vec_items item0 blob item2 item3)) ;;;
      call_db (total sqlite3.commit) ;;;
      add_loop cursor rest (ids ++ [sqlite3.lastrowid cursor])
  end.

(** [add] *)
Definition add (nodes : list BaseNode) (kwargs : Kwargs) : M (list (option Z)) :=
  items <- lift (items_of nodes) ;;
  with_db (
    cursor <- call_db (fun c => (OK (sqlite3.cursor c), c)) ;;
    add_loop cursor items []).

Definition async_add (nodes : list BaseNode) (kwargs : Kwargs) : M (list (option Z)) :=
  add nodes kwargs.

(** The methods that are not implemented. *)
Definition get_nodes (node_ids : option (list string))
                     (filters : option MetadataFilters) : M (list BaseNode) :=
  raise (NotImplementedError "get_nodes not implemented").

Definition aget_nodes (node_ids : option (list string))
                      (filters : option MetadataFilters) : M (list BaseNode) :=
  get_nodes node_ids filters.

Definition delete (ref_doc_id : string) (delete_kwargs : Kwargs) : M unit :=
  raise (NotImplementedError "get_nodes not implemented").

Definition adelete (ref_doc_id : string) (delete_kwargs : Kwargs) : M unit :=
  delete ref_doc_id delete_kwargs.

Definition delete_nodes (node_ids : option (list string))
                        (filters : option MetadataFilters)
                        (delete_kwargs : Kwargs) : M unit :=
  raise (NotImplementedError "delete_nodes not implemented").

Definition adelete_nodes (node_ids : option (list string))
                         (filters : option MetadataFilters)
                         (delete_kwargs : Kwargs) : M unit :=
  delete_nodes node_ids filters no_kwargs.

Definition clear : M unit :=
  raise (NotImplementedError "clear not implemented").

Definition aclear : M unit := clear.

Definition query (q : VectorStoreQuery) (kwargs : Kwargs) : M VectorStoreQueryResult :=
  raise (NotImplementedError "get_nodes not implemented").

Definition aquery (q : VectorStoreQuery) (kwargs : Kwargs) : M VectorStoreQueryResult :=
  query q kwargs.

Definition persist (persist_path : string) : M unit := ret tt.

End Methods.

(** ** Histories of a store object *)
Section Histories.

Context {P : Packages}.

(** One call on a store object. *)
Inductive call : Type :=
| call_initialize
| call_client
| call_add (nodes : list BaseNode) (kwargs : Kwargs)
| call_get_nodes (node_ids : option (list string)) (filters : option MetadataFilters)
| call_delete (ref_doc_id : string) (delete_kwargs : Kwargs)
| call_delete_nodes (node_ids : option (list string))
                    (filters : option MetadataFilters) (delete_kwargs : Kwargs)
| call_clear
| call_query (q : VectorStoreQuery) (kwargs : Kwargs)
| call_persist (persist_path : string).

(** The object after a call, whether the call returned or raised. *)
Definition after (c : call) (self : SQLiteVectorStore) : SQLiteVectorStore :=
  match c with
  | call_initialize => snd (_initialize self)
  | call_client => snd (client self)
  | call_add nodes kwargs => snd (add nodes kwargs self)
  | call_get_nodes node_ids filters =>
      snd (get_nodes node_ids filters self)
  | call_delete ref_doc_id kw => snd (delete ref_doc_id kw self)
  | call_delete_nodes node_ids filters kw => snd (delete_nodes node_ids filters kw self)
  | call_clear => snd (clear self)
  | call_query q kw => snd (query q kw self)
  | call_persist path => snd (persist path self)
  end.

End Histories.

(** The rows of the table as of the last commit; none without a
    connection. *)
Definition committed_rows (self : SQLiteVectorStore) : list sqlite3.row :=
  match db self with
  | Some c => sqlite3.committed c
  | None => []
  end.

(** ** Sample objects *)
Module Sample.

(** Two metadata mappings: the empty one ([true]) and one with a value
    that is not JSON, a set ([false]); no filters, queries or keyword
    arguments. *)
Definition packages : Packages :=
  {| Metadata := bool; MetadataFilters := unit; VectorStoreQuery := unit;
     VectorStoreQueryResult := unit; Kwargs := unit; no_kwargs := tt;
     json_dumps := fun metadata =>
       if metadata then OK "{}"
       else Raise (TypeError "Object of type set is not JSON serializable") |}.

Definition node (name : string) (v : list Z) (content : string)
  : @BaseNode packages :=
  @Build_BaseNode packages name (Some (map PyStruct.float_of_Z v)) true content.

Definition fresh : SQLiteVectorStore := __init__ ":memory:" 3.

Definition on_disk : SQLiteVectorStore := __init__ "/tmp/vec.db" 3.

(** The store after a call to [_initialize]. *)
Definition attempted : SQLiteVectorStore := snd (_initialize fresh).

(** The store with the path, after a call to [_initialize]. *)
Definition attempted_on_disk : SQLiteVectorStore := snd (_initialize on_disk).

Definition n1 := node "a" [1; 2; 3] "hi".
Definition n2 := node "b" [4; 5; 6] "ho".
Definition n3 := node "c" [7; 8; 9] "hum".
Definition short := node "d" [1; 2] "two components".

(** A node whose metadata is not JSON. *)
Definition not_json : @BaseNode packages :=
  @Build_BaseNode packages "e" (Some (map PyStruct.float_of_Z [1; 2; 3])) false "a set".

End Sample.

(** ** Vocabulary of the statements *)

(** The exceptions of the encoding step of [add]. *)
Definition raised_by_encoder (e : exn) : Prop :=
  exists embedding, serialize_embedding embedding = Raise e.

(** A node has an embedding, of another length than [d]. *)
Definition has_other_width {P : Packages} (d : Z) (node : BaseNode) : Prop :=
  exists v, embedding node = Some v /\ Z.of_nat (length v) <> d.

(** The exception that [add] raises on a store without a connection: that
    of [json.dumps] when it refuses the metadata of a node, and else the
    [AttributeError] of [self.db]. *)
Definition add_raises {P : Packages} (nodes : list BaseNode) : exn :=
  match items_of nodes with
  | OK _ => AttributeError "db"
  | Raise e => e
  end.

(** ** Vocabulary of the rounding lemmas *)

(** The result of rounding: a zero, an infinity, or a value of the format,
    of the sign that went in. *)
Definition rounded_shape (prec emax : Z) (sx : bool) (r : spec_float) : Prop :=
  r = S754_zero sx \/ r = S754_infinity sx \/
  exists m e, r = S754_finite sx m e /\ bounded prec emax m e = true.

(** The quotient [p], the round bit [b] and the sticky bit [s] of the
    mantissa [M] on a grid of [G]: the bits tell where twice the remainder
    lies, at or above [G], and exactly on zero or [G]. *)
Definition shifted_after (M G p : Z) (b s : bool) : Prop :=
  p = M / G /\
  exists t, 0 <= t < G /\ (t = 0 <-> s = false) /\
            2 * (M mod G) = (if b then G else 0) + t.

(** The record after [k] shifts of the mantissa [M] to the right. *)
Definition shifted (M k : Z) (mrs : shr_record) : Prop :=
  shifted_after M (2 ^ k) (shr_m mrs) (shr_r mrs) (shr_s mrs).

(** Rounding to nearest, ties to even, of [q * g + r] to a multiple
    [m2 * g] of [g]. *)
Definition rounding_rule (q r g m2 : Z) : Prop :=
  (2 * r < g /\ m2 = q) \/
  (2 * r = g /\ m2 = (if Z.even q then q else q + 1)) \/
  (g < 2 * r /\ m2 = q + 1).

(** A mantissa at its exponent: zero at the least exponent, or one that
    fills its exponent. *)
Definition in_format (prec emax m e : Z) : Prop :=
  (m = 0 /\ e = emin prec emax) \/
  (0 < m /\ fexp prec emax (Zdigits2 m + e) = e).


(** ** Runs of calls *)
Section Runs.

Context {P : Packages}.

(** The object after a list of calls, the first call first. *)
Fixpoint run (calls : list call) (self : SQLiteVectorStore) : SQLiteVectorStore :=
  match calls with
  | [] => self
  | c :: rest => run rest (after c self)
  end.

End Runs.

(** ** The encoder *)

Lemma np_float_length x : length (PyStruct.np_float x) = 4%nat.
Proof. apply length_le_split. Qed.

Lemma flat_map_np_float_length v :
  length (flat_map PyStruct.np_float v) = (4 * length v)%nat.
Proof.
  induction v as [|x v IH]; [reflexivity|].
  cbn [flat_map]. rewrite length_app, np_float_length, IH. cbn [length]. lia.
Qed.

Lemma serialize_f32_eq v : serialize_f32 v = OK (flat_map PyStruct.np_float v).
Proof. unfold serialize_f32, PyStruct.pack_f. rewrite Nat.eqb_refl. reflexivity. Qed.


(** ** The layout of the encoding *)

Lemma chunk4_flat_map (pre : list PyStruct.float) x post :
  chunk4 (flat_map PyStruct.np_float (pre ++ x :: post)) (length pre)
  = PyStruct.np_float x.
Proof.
  unfold chunk4. rewrite flat_map_app. cbn [flat_map].
  rewrite skipn_app, <- flat_map_np_float_length, skipn_all, Nat.sub_diag.
  rewrite skipn_O. cbn [app]. rewrite firstn_app, np_float_length, Nat.sub_diag.
  rewrite firstn_O, app_nil_r.
  apply firstn_all2. rewrite np_float_length. apply Nat.le_refl.
Qed.

Lemma chunks4_flat_map (v : list PyStruct.float) :
  chunks4 (length v) (flat_map PyStruct.np_float v) = map PyStruct.np_float v.
Proof.
  unfold chunks4.
  enough (H : forall pre,
             map (chunk4 (flat_map PyStruct.np_float (pre ++ v)))
                 (seq (length pre) (length v))
             = map PyStruct.np_float v) by exact (H []).
  induction v as [|x v IH]; intros pre; [reflexivity|].
  cbn [length seq map]. rewrite chunk4_flat_map. f_equal.
  specialize (IH (pre ++ [x])).
  rewrite <- app_assoc, length_app in IH. cbn [app length] in IH.
  rewrite Nat.add_1_r in IH. exact IH.
Qed.


(** ** Binary digits *)

Lemma pow2_pos n : 0 <= n -> 0 < 2 ^ n.
Proof. intros. apply Z.pow_pos_nonneg; lia. Qed.

Lemma pow2_succ n : 0 <= n -> 2 ^ (n + 1) = 2 * 2 ^ n.
Proof. intros. rewrite Z.pow_add_r by lia. lia. Qed.

Lemma digits2_pos_bounds m :
  2 ^ (Z.pos (digits2_pos m) - 1) <= Z.pos m < 2 ^ Z.pos (digits2_pos m).
Proof.
  induction m as [m IH | m IH |]; cbn [digits2_pos].
  - rewrite Pos2Z.inj_succ.
    replace (Z.succ (Z.pos (digits2_pos m)) - 1) with (Z.pos (digits2_pos m) - 1 + 1) by lia.
    unfold Z.succ. rewrite !pow2_succ by lia. lia.
  - rewrite Pos2Z.inj_succ.
    replace (Z.succ (Z.pos (digits2_pos m)) - 1) with (Z.pos (digits2_pos m) - 1 + 1) by lia.
    unfold Z.succ. rewrite !pow2_succ by lia. lia.
  - cbn. lia.
Qed.

Lemma Zdigits2_nonneg m : 0 <= m -> 0 <= Zdigits2 m.
Proof. destruct m; cbn; lia. Qed.

Lemma Zdigits2_bounds m :
  0 < m -> 0 < Zdigits2 m /\ 2 ^ (Zdigits2 m - 1) <= m < 2 ^ Zdigits2 m.
Proof.
  destruct m as [|p|p]; try lia. intros _. cbn [Zdigits2].
  split; [lia | apply digits2_pos_bounds].
Qed.

Lemma Zdigits2_unique m d :
  2 ^ (d - 1) <= m < 2 ^ d -> 0 < m -> Zdigits2 m = d.
Proof.
  intros [Hlo Hhi] Hm.
  destruct (Zdigits2_bounds m Hm) as (Hd & Hlo' & Hhi').
  assert (0 < d).
  { destruct (Z_lt_le_dec 0 d) as [|Hle]; [assumption|].
    exfalso. destruct (Z.eq_dec d 0) as [->|].
    - cbn in Hhi. lia.
    - rewrite Z.pow_neg_r in Hhi by lia. lia. }
  assert (Zdigits2 m - 1 < d).
  { apply (Z.pow_lt_mono_r_iff 2); lia. }
  assert (d - 1 < Zdigits2 m).
  { apply (Z.pow_lt_mono_r_iff 2); lia. }
  lia.
Qed.

Lemma div_pow2_bounds m d n :
  0 <= n < d -> 2 ^ (d - 1) <= m < 2 ^ d ->
  2 ^ (d - n - 1) <= m / 2 ^ n < 2 ^ (d - n).
Proof.
  intros Hn [Hlo Hhi]. pose proof (pow2_pos n ltac:(lia)) as Hp. split.
  - apply Z.div_le_lower_bound; [assumption|].
    rewrite <- Z.pow_add_r by lia. replace (n + (d - n - 1)) with (d - 1) by lia.
    assumption.
  - apply Z.div_lt_upper_bound; [assumption|].
    rewrite <- Z.pow_add_r by lia. replace (n + (d - n)) with d by lia.
    assumption.
Qed.

Lemma Zdigits2_div_pow2 m n :
  0 < m -> 0 <= n < Zdigits2 m ->
  0 < m / 2 ^ n /\ Zdigits2 (m / 2 ^ n) = Zdigits2 m - n.
Proof.
  intros Hm Hn. destruct (Zdigits2_bounds m Hm) as (Hd & Hb).
  pose proof (div_pow2_bounds m _ n Hn Hb) as Hq.
  assert (0 < m / 2 ^ n).
  { pose proof (pow2_pos (Zdigits2 m - n - 1) ltac:(lia)). lia. }
  split; [assumption|]. apply Zdigits2_unique; assumption.
Qed.

Lemma div_pow2_small m n :
  0 < m -> Zdigits2 m <= n -> m / 2 ^ n = 0.
Proof.
  intros Hm Hn. destruct (Zdigits2_bounds m Hm) as (Hd & Hlo & Hhi).
  apply Z.div_small. split; [lia|].
  apply Z.lt_le_trans with (2 ^ Zdigits2 m); [assumption|].
  apply Z.pow_le_mono_r; lia.
Qed.

Lemma Zdigits2_succ m :
  0 < m ->
  Zdigits2 (m + 1) = Zdigits2 m \/
  (m + 1 = 2 ^ Zdigits2 m /\ Zdigits2 (m + 1) = Zdigits2 m + 1).
Proof.
  intros Hm. destruct (Zdigits2_bounds m Hm) as (Hd & Hlo & Hhi).
  destruct (Z.eq_dec (m + 1) (2 ^ Zdigits2 m)) as [He|Hne].
  - right. split; [assumption|]. apply Zdigits2_unique; [|lia].
    replace (Zdigits2 m + 1 - 1) with (Zdigits2 m) by lia.
    rewrite pow2_succ by lia. lia.
  - left. apply Zdigits2_unique; lia.
Qed.

Lemma Zdigits2_pow2 d : 0 <= d -> Zdigits2 (2 ^ d) = d + 1.
Proof.
  intros Hd. pose proof (pow2_pos d Hd). apply Zdigits2_unique; [|lia].
  replace (d + 1 - 1) with d by lia. rewrite pow2_succ by lia. lia.
Qed.

(** ** Shifting and rounding a mantissa *)

Lemma shr_1_m mrs : 0 <= shr_m mrs -> shr_m (shr_1 mrs) = shr_m mrs / 2.
Proof.
  destruct mrs as [m r s]. cbn [shr_m]. intros Hm.
  destruct m as [|p|p]; try lia.
  - reflexivity.
  - destruct p as [p|p|]; cbn [shr_1 shr_m].
    + rewrite Pos2Z.inj_xI. apply Z.div_unique with 1; lia.
    + rewrite Pos2Z.inj_xO. apply Z.div_unique with 0; lia.
    + reflexivity.
Qed.

Lemma iter_pos_shr_1_m p :
  forall mrs, 0 <= shr_m mrs ->
    shr_m (iter_pos shr_1 p mrs) = shr_m mrs / 2 ^ Z.pos p.
Proof.
  assert (Hhalf : forall m, 0 <= m -> 0 <= m / 2).
  { intros. apply Z.div_pos; lia. }
  assert (Hdiv : forall m k, 0 <= m -> 0 <= m / 2 ^ Z.pos k).
  { intros. apply Z.div_pos; [assumption | apply pow2_pos; lia]. }
  induction p as [p IH | p IH |]; intros mrs Hm; cbn [iter_pos].
  - assert (H1 : 0 <= shr_m (shr_1 mrs)).
    { rewrite shr_1_m by assumption. auto. }
    assert (H2 : 0 <= shr_m (iter_pos shr_1 p (shr_1 mrs))).
    { rewrite IH by assumption. auto. }
    rewrite (IH _ H2), (IH _ H1), (shr_1_m _ Hm).
    rewrite !Z.div_div by (try apply pow2_pos; lia).
    f_equal.
    replace (Z.pos p~1) with (1 + Z.pos p + Z.pos p) by lia.
    rewrite !Z.pow_add_r by lia. change (2 ^ 1) with 2. lia.
  - assert (H1 : 0 <= shr_m (iter_pos shr_1 p mrs)).
    { rewrite IH by assumption. auto. }
    rewrite (IH _ H1), (IH _ Hm).
    rewrite !Z.div_div by (try apply pow2_pos; lia).
    f_equal.
    replace (Z.pos p~0) with (Z.pos p + Z.pos p) by lia.
    rewrite Z.pow_add_r by lia. reflexivity.
  - rewrite shr_1_m by assumption. reflexivity.
Qed.

Lemma shr_shifts mrs e n :
  0 <= shr_m mrs -> 0 < n ->
  shr_m (fst (shr mrs e n)) = shr_m mrs / 2 ^ n /\ snd (shr mrs e n) = e + n.
Proof.
  intros Hm Hn. destruct n as [|p|p]; try lia. cbn [shr fst snd].
  split; [apply iter_pos_shr_1_m; assumption | reflexivity].
Qed.

Lemma shr_keeps mrs e n : n <= 0 -> shr mrs e n = (mrs, e).
Proof. destruct n as [|p|p]; try lia; reflexivity. Qed.

Lemma shr_record_of_loc_m m l : shr_m (shr_record_of_loc m l) = m.
Proof. destruct l as [|[ | | ]]; reflexivity. Qed.

Lemma round_nearest_even_cases m l :
  round_nearest_even m l = m \/ round_nearest_even m l = m + 1.
Proof.
  destruct l as [|[ | | ]]; cbn; auto. destruct (Z.even m); auto.
Qed.

Lemma digits2_pos_iter_xO m d :
  digits2_pos (Pos.iter xO m d) = (digits2_pos m + d)%positive.
Proof.
  induction d as [|d IH] using Pos.peano_ind.
  - cbn. lia.
  - rewrite Pos.iter_succ. cbn [digits2_pos]. rewrite IH. lia.
Qed.

(** ** Rounding gives a value of the format *)

Section RoundValid.

Variables prec emax : Z.
Hypothesis Hprec : 0 < prec.

Lemma fexp_eq e : fexp prec emax e = Z.max (e - prec) (emin prec emax).
Proof. reflexivity. Qed.

(** Exposes [fexp] as a maximum over an unknown least exponent [z]. *)
Ltac open_fexp :=
  rewrite ?fexp_eq in *;
  set (z := emin prec emax) in *; clearbody z.

(** After the first shift: the mantissa is zero at the least exponent, or
    it fills the exponent and has at most [prec] digits. *)
Lemma first_shift mx ex :
  0 < mx -> ex <= fexp prec emax (Zdigits2 mx + ex) ->
  let n := fexp prec emax (Zdigits2 mx + ex) - ex in
  emin prec emax <= ex + n /\
  ((mx / 2 ^ n = 0 /\ ex + n = emin prec emax) \/
   (0 < mx / 2 ^ n /\ fexp prec emax (Zdigits2 (mx / 2 ^ n) + (ex + n)) = ex + n)).
Proof.
  intros Hm Hn n. subst n. open_fexp.
  set (dx := Zdigits2 mx) in *.
  set (e1 := Z.max (dx + ex - prec) z) in *.
  replace (ex + (e1 - ex)) with e1 by lia.
  split; [subst e1; lia|].
  destruct (Z_lt_le_dec (e1 - ex) dx) as [Hlt|Hge].
  - right. destruct (Zdigits2_div_pow2 mx (e1 - ex) Hm) as [Hpos ->]; [fold dx; lia|].
    split; [assumption|]. fold dx. subst e1. lia.
  - left. split; [apply div_pow2_small; assumption|]. subst e1. lia.
Qed.

(** After the rounding and the second shift: zero, or a mantissa that
    fills the exponent. *)
Lemma second_shift m1 e1 m2 :
  emin prec emax <= e1 ->
  (m1 = 0 /\ e1 = emin prec emax) \/ (0 < m1 /\ fexp prec emax (Zdigits2 m1 + e1) = e1) ->
  m2 = m1 \/ m2 = m1 + 1 ->
  let n := fexp prec emax (Zdigits2 m2 + e1) - e1 in
  (n <= 0 /\ (m2 = 0 \/ (0 < m2 /\ fexp prec emax (Zdigits2 m2 + e1) = e1))) \/
  (0 < n /\ 0 < m2 / 2 ^ n /\
   fexp prec emax (Zdigits2 (m2 / 2 ^ n) + (e1 + n)) = e1 + n).
Proof.
  intros He1 H1 H2 n. subst n. open_fexp.
  destruct H1 as [[-> ->] | [Hm1 Hc]].
  - left. destruct H2 as [-> | ->].
    + change (Zdigits2 0) with 0. split; [lia | left; reflexivity].
    + change (Zdigits2 (0 + 1)) with 1. split; [lia | right; lia].
  - destruct H2 as [-> | ->].
    + left. split; [lia|]. right. auto.
    + destruct (Zdigits2_succ m1 Hm1) as [-> | [Hpow Hd]].
      * left. split; [lia|]. right. split; [lia | assumption].
      * pose proof (Zdigits2_bounds m1 Hm1) as (Hd1 & _).
        rewrite Hd.
        destruct (Z.eq_dec (Zdigits2 m1) prec) as [Hp|Hp].
        -- right.
           replace (Z.max (Zdigits2 m1 + 1 + e1 - prec) z - e1) with 1 by lia.
           rewrite Hpow. change (2 ^ 1) with 2.
           replace (2 ^ Zdigits2 m1 / 2) with (2 ^ (Zdigits2 m1 - 1)).
           2:{ replace (Zdigits2 m1) with (Zdigits2 m1 - 1 + 1) at 2 by lia.
               rewrite pow2_succ by lia. rewrite Z.mul_comm, Z.div_mul; lia. }
           split; [lia|]. split; [apply pow2_pos; lia|].
           rewrite Zdigits2_pow2 by lia. lia.
        -- left. split; [lia|]. right. split; lia.
Qed.

Lemma binary_round_aux_cases sx mx ex lx :
  0 < mx -> ex <= fexp prec emax (Zdigits2 mx + ex) ->
  rounded_shape prec emax sx (binary_round_aux prec emax sx mx ex lx).
Proof.
  intros Hm Hn. unfold binary_round_aux, shr_fexp.
  set (n1 := fexp prec emax (Zdigits2 mx + ex) - ex).
  assert (Hn1 : 0 <= n1) by (subst n1; lia).
  destruct (first_shift mx ex Hm Hn) as [He1 Hst1]. fold n1 in He1, Hst1.
  assert (Hsh1 : shr_m (fst (shr (shr_record_of_loc mx lx) ex n1)) = mx / 2 ^ n1 /\
                 snd (shr (shr_record_of_loc mx lx) ex n1) = ex + n1).
  { destruct (Z.eq_dec n1 0) as [->|Hne].
    - rewrite shr_keeps by lia. cbn [fst snd].
      rewrite shr_record_of_loc_m, Z.div_1_r. lia.
    - destruct (shr_shifts (shr_record_of_loc mx lx) ex n1) as [H1 H2];
        [rewrite shr_record_of_loc_m; lia | lia |].
      rewrite shr_record_of_loc_m in H1. auto. }
  destruct (shr (shr_record_of_loc mx lx) ex n1) as [mrs1 e1].
  cbn [fst snd] in Hsh1. destruct Hsh1 as [Hm1 ->].
  set (m2 := round_nearest_even (shr_m mrs1) (loc_of_shr_record mrs1)).
  assert (Hm2 : m2 = mx / 2 ^ n1 \/ m2 = mx / 2 ^ n1 + 1).
  { rewrite <- Hm1. apply round_nearest_even_cases. }
  pose proof (second_shift _ _ m2 He1 Hst1 Hm2) as Hst2. cbn zeta in Hst2.
  set (n2 := fexp prec emax (Zdigits2 m2 + (ex + n1)) - (ex + n1)) in *.
  assert (Hm2pos : 0 <= m2).
  { destruct Hst1 as [[? _]|[? _]]; lia. }
  destruct Hst2 as [[Hle Hcase] | (Hlt & Hpos & Hcanon)].
  - rewrite shr_keeps by assumption. cbn [shr_m shr_record_of_loc].
    destruct Hcase as [-> | [Hpos Hcanon]]; [left; reflexivity|].
    destruct m2 as [|p|p]; try lia.
    destruct (ex + n1 <=? emax - prec) eqn:Hb; [|right; left; reflexivity].
    right. right. exists p, (ex + n1). split; [reflexivity|].
    unfold bounded, canonical_mantissa.
    rewrite Hb, andb_true_r. apply Z.eqb_eq. exact Hcanon.
  - destruct (shr_shifts (shr_record_of_loc m2 loc_Exact) (ex + n1) n2) as [Hm3 He3];
      [cbn; lia | assumption |].
    destruct (shr (shr_record_of_loc m2 loc_Exact) (ex + n1) n2) as [mrs3 e3].
    cbn [fst snd shr_m shr_record_of_loc] in Hm3, He3. subst e3.
    rewrite Hm3.
    destruct (m2 / 2 ^ n2) as [|p|p]; try lia.
    destruct (ex + n1 + n2 <=? emax - prec) eqn:Hb; [|right; left; reflexivity].
    right. right. exists p, (ex + n1 + n2). split; [reflexivity|].
    unfold bounded, canonical_mantissa.
    rewrite Hb, andb_true_r. apply Z.eqb_eq. exact Hcanon.
Qed.

Lemma binary_round_cases sx mx ex :
  rounded_shape prec emax sx (binary_round prec emax sx mx ex).
Proof.
  unfold binary_round, shl_align.
  set (ex' := fexp prec emax (Z.pos (digits2_pos mx) + ex)).
  destruct (ex' - ex) as [|d|d] eqn:Hd.
  - apply binary_round_aux_cases; [lia|]. cbn [Zdigits2]. fold ex'. lia.
  - apply binary_round_aux_cases; [lia|]. cbn [Zdigits2]. fold ex'. lia.
  - apply binary_round_aux_cases; [lia|]. cbn [Zdigits2].
    rewrite digits2_pos_iter_xO, Pos2Z.inj_add.
    replace (Z.pos (digits2_pos mx) + Z.pos d + ex') with (Z.pos (digits2_pos mx) + ex) by lia.
    fold ex'. lia.
Qed.

End RoundValid.
(** ** The binary32 value of a float *)

Lemma quiet_payload_bounds payload :
  2 ^ 22 <= Z.pos (PyStruct.quiet_payload payload) < 2 ^ 23 /\
  Z.pos (PyStruct.quiet_payload payload) mod 2 ^ 22
  = (Z.pos payload / 2 ^ 29) mod 2 ^ 22.
Proof.
  unfold PyStruct.quiet_payload. cbv zeta.
  set (upper := (Z.pos payload / 2 ^ 29) mod 2 ^ 23).
  assert (Hu : 0 <= upper < 2 ^ 23) by (apply Z.mod_pos_bound; reflexivity).
  assert (Hmod : upper mod 2 ^ 22 = (Z.pos payload / 2 ^ 29) mod 2 ^ 22).
  { subst upper. apply Z.mod_mod_divide. exists 2. reflexivity. }
  change (2 ^ 23) with (2 ^ 22 + 2 ^ 22) in *.
  destruct (Z.leb_spec (2 ^ 22) upper) as [Hq|Hq].
  - rewrite Z2Pos.id by (change (2 ^ 22) with 4194304 in *; lia).
    split; [lia | exact Hmod].
  - rewrite Z2Pos.id by (change (2 ^ 22) with 4194304 in *; lia).
    split; [lia|].
    rewrite <- Hmod. rewrite <- (Z.mul_1_l (2 ^ 22)) at 1.
    apply Z.mod_add. discriminate.
Qed.

Lemma double_to_single_is_binary32 x :
  IEEE754.is_binary32 (PyStruct.double_to_single x) = true.
Proof.
  destruct x as [s|s|s payload|s m e]; try reflexivity.
  - cbn [PyStruct.double_to_single IEEE754.is_binary32].
    apply Z.ltb_lt. apply quiet_payload_bounds.
  - cbn [PyStruct.double_to_single]. unfold PyStruct.prec32, PyStruct.emax32.
    destruct (binary_round_cases 24 128 ltac:(lia) s m e)
      as [-> | [-> | (m' & e' & -> & Hb)]]; try reflexivity.
    exact Hb.
Qed.

(** A finite value that is of the binary32 format already is not changed
    by the rounding. *)
Lemma double_to_single_exact x :
  IEEE754.is_finite x = true -> IEEE754.is_binary32 x = true ->
  PyStruct.double_to_single x = x.
Proof.
  destruct x as [s|s|s payload|s m e]; try reflexivity; try discriminate.
  intros _. cbn [IEEE754.is_binary32 PyStruct.double_to_single].
  unfold bounded, canonical_mantissa. rewrite andb_true_iff, Z.eqb_eq.
  intros [Hc Hb]. unfold PyStruct.prec32, PyStruct.emax32.
  unfold binary_round, shl_align. rewrite Hc, Z.sub_diag.
  unfold binary_round_aux, shr_fexp. cbn [Zdigits2]. rewrite Hc, Z.sub_diag.
  cbn [shr shr_record_of_loc shr_m loc_of_shr_record round_nearest_even Zdigits2].
  rewrite Hc, Z.sub_diag. cbn [shr shr_m]. rewrite Hb. reflexivity.
Qed.

(** ** The 32-bit pattern of a binary32 value *)

Lemma split_join_bits s E F :
  0 <= E < 2 ^ 8 -> 0 <= F < 2 ^ 23 ->
  (2 ^ 31 <=? PyStruct.join_bits s E F) = s /\
  (PyStruct.join_bits s E F / 2 ^ 23) mod 2 ^ 8 = E /\
  PyStruct.join_bits s E F mod 2 ^ 23 = F /\
  0 <= PyStruct.join_bits s E F < 2 ^ 32.
Proof.
  unfold PyStruct.join_bits, PyStruct.sign_bit.
  change (2 ^ 8) with 256. change (2 ^ 23) with 8388608.
  change (2 ^ 31) with 2147483648. change (2 ^ 32) with 4294967296.
  intros HE HF.
  assert (Hdiv : forall k, (k * 8388608 + F) / 8388608 = k).
  { intros k. symmetry. apply Z.div_unique with F; lia. }
  assert (Hmod : forall k, (k * 8388608 + F) mod 8388608 = F).
  { intros k. symmetry. apply Z.mod_unique with k; lia. }
  rewrite Hdiv, Hmod. destruct s.
  - split; [apply Z.leb_le; lia|].
    split; [symmetry; apply Z.mod_unique with 1; lia|].
    split; [reflexivity | lia].
  - split; [apply Z.leb_gt; lia|].
    split; [apply Z.mod_small; lia|].
    split; [reflexivity | lia].
Qed.

Lemma bounded32_cases m e :
  bounded 24 128 m e = true ->
  (Z.pos m < 2 ^ 23 /\ e = -149) \/
  (2 ^ 23 <= Z.pos m < 2 ^ 24 /\ -149 <= e <= 104).
Proof.
  unfold bounded, canonical_mantissa.
  rewrite andb_true_iff, Z.eqb_eq, Z.leb_le, fexp_eq.
  change (emin 24 128) with (-149). change (128 - 24) with 104.
  intros [Hc He]. pose proof (digits2_pos_bounds m) as [Hlo Hhi].
  set (d := Z.pos (digits2_pos m)) in *. clearbody d.
  destruct (Z_lt_le_dec d 24) as [Hd|Hd].
  - left. split; [|lia].
    apply Z.lt_le_trans with (2 ^ d); [assumption|].
    apply Z.pow_le_mono_r; lia.
  - right. assert (d = 24) by lia. subst d.
    change (24 - 1) with 23 in Hlo. lia.
Qed.

(** The fields of the pattern of a binary32 value. *)
Lemma bits_of_single_fields y :
  IEEE754.is_binary32 y = true ->
  exists s E F,
    PyStruct.bits_of_single y = PyStruct.join_bits s E F /\
    0 <= E < 2 ^ 8 /\ 0 <= F < 2 ^ 23 /\
    match y with
    | PyStruct.B754_zero s' => s' = s /\ E = 0 /\ F = 0
    | PyStruct.B754_infinity s' => s' = s /\ E = 255 /\ F = 0
    | PyStruct.B754_nan s' payload => s' = s /\ E = 255 /\ F = Z.pos payload
    | PyStruct.B754_finite s' m e =>
        s' = s /\
        ((E = 0 /\ F = Z.pos m /\ e = -149) \/
         (1 <= E <= 254 /\ 2 ^ 23 + F = Z.pos m /\ e = E - 150))
    end.
Proof.
  change (2 ^ 8) with 256.
  destruct y as [s|s|s payload|s m e];
    cbn [IEEE754.is_binary32 PyStruct.bits_of_single].
  - intros _. exists s, 0, 0. repeat split; lia.
  - intros _. exists s, 255, 0. repeat split; lia.
  - intros Hp. apply Z.ltb_lt in Hp. exists s, 255, (Z.pos payload).
    repeat split; lia.
  - intros Hb. apply bounded32_cases in Hb.
    destruct Hb as [[Hm ->] | [Hm He]].
    + apply Z.ltb_lt in Hm as Hlt. rewrite Hlt.
      exists s, 0, (Z.pos m).
      split; [reflexivity|]. split; [lia|]. split; [lia|].
      split; [reflexivity|]. left. lia.
    + assert (Hlt : (Z.pos m <? 2 ^ 23) = false) by (apply Z.ltb_ge; lia).
      rewrite Hlt. change (2 ^ 24) with (2 ^ 23 + 2 ^ 23) in Hm.
      exists s, (e + 150), (Z.pos m - 2 ^ 23).
      split; [reflexivity|]. split; [lia|]. split; [lia|].
      split; [reflexivity|]. right. lia.
Qed.

Lemma bits_of_single_pattern y :
  IEEE754.is_binary32 y = true ->
  IEEE754.pattern_of y (PyStruct.bits_of_single y).
Proof.
  intros Hy. destruct (bits_of_single_fields y Hy) as (s & E & F & -> & HE & HF & Hy').
  destruct (split_join_bits s E F HE HF) as (Hs & HE' & HF' & Hw).
  unfold IEEE754.pattern_of. split; [assumption|]. cbv zeta.
  rewrite Hs, HE', HF'.
  destruct y as [s'|s'|s' payload|s' m e].
  - destruct Hy' as (-> & ? & ?). auto.
  - destruct Hy' as (-> & ? & ?). auto.
  - destruct Hy' as (-> & ? & ?). auto.
  - destruct Hy' as (-> & ?). auto.
Qed.

Lemma single_of_bits_of_single y :
  IEEE754.is_binary32 y = true ->
  VectorCodec.single_of_bits (PyStruct.bits_of_single y) = y /\
  0 <= PyStruct.bits_of_single y < 2 ^ 32.
Proof.
  intros Hy. destruct (bits_of_single_fields y Hy) as (s & E & F & -> & HE & HF & Hy').
  destruct (split_join_bits s E F HE HF) as (Hs & HE' & HF' & Hw).
  split; [|assumption].
  unfold VectorCodec.single_of_bits. cbv zeta. rewrite Hs, HE', HF'.
  destruct y as [s'|s'|s' payload|s' m e].
  - destruct Hy' as (-> & -> & ->). reflexivity.
  - destruct Hy' as (-> & -> & ->). reflexivity.
  - destruct Hy' as (-> & -> & ->). reflexivity.
  - destruct Hy' as (-> & [(-> & -> & ->) | (HE1 & Hm & ->)]); [reflexivity|].
    assert (H0 : (E =? 0) = false) by (apply Z.eqb_neq; lia).
    assert (H255 : (E =? 255) = false) by (apply Z.eqb_neq; lia).
    rewrite H0, H255. rewrite Z.add_comm, Hm. reflexivity.
Qed.

(** ** Decoding an encoding *)

Lemma single_of_np_float x :
  VectorCodec.single_of_bits (le_combine (PyStruct.np_float x))
  = PyStruct.double_to_single x.
Proof.
  unfold PyStruct.np_float.
  destruct (single_of_bits_of_single _ (double_to_single_is_binary32 x)) as [Hback Hrange].
  rewrite le_combine_split. change (Z.of_nat 4 * 8) with 32.
  rewrite Z.mod_small by assumption. exact Hback.
Qed.

Lemma unpack_f_flat_map v :
  VectorCodec.unpack_f (length v) (flat_map PyStruct.np_float v)
  = map PyStruct.double_to_single v.
Proof.
  induction v as [|x v IH]; [reflexivity|].
  cbn [length flat_map VectorCodec.unpack_f map].
  rewrite firstn_app, skipn_app, np_float_length, Nat.sub_diag.
  rewrite firstn_O, app_nil_r, skipn_O.
  rewrite firstn_all2, skipn_all2 by (rewrite np_float_length; apply Nat.le_refl).
  cbn [app]. rewrite single_of_np_float, IH. reflexivity.
Qed.

Lemma decode_flat_map v :
  VectorCodec.decode (flat_map PyStruct.np_float v) (length v)
  = inr (map PyStruct.double_to_single v).
Proof.
  unfold VectorCodec.decode.
  rewrite flat_map_np_float_length, Nat.eqb_refl, unpack_f_flat_map.
  reflexivity.
Qed.
(** ** Rounding to nearest *)

Lemma iter_pos_invariant {A : Type} (f : A -> A) (Inv : Z -> A -> Prop) :
  (forall k x, 0 <= k -> Inv k x -> Inv (k + 1) (f x)) ->
  forall p k x, 0 <= k -> Inv k x -> Inv (k + Z.pos p) (iter_pos f p x).
Proof.
  intros Hstep. induction p as [p IH | p IH |]; intros k x Hk Hx; cbn [iter_pos].
  - replace (k + Z.pos p~1) with (k + 1 + Z.pos p + Z.pos p) by lia.
    apply IH; [lia|]. apply IH; [lia|]. apply Hstep; assumption.
  - replace (k + Z.pos p~0) with (k + Z.pos p + Z.pos p) by lia.
    apply IH; [lia|]. apply IH; assumption.
  - apply Hstep; assumption.
Qed.

Lemma shifted_step M k mrs :
  0 <= M -> 0 <= k -> shifted M k mrs -> shifted M (k + 1) (shr_1 mrs).
Proof.
  unfold shifted. intros HM Hk [Hm (t & Ht & Hs & Hr)].
  rewrite pow2_succ by assumption.
  pose proof (pow2_pos k Hk) as HP. set (P := 2 ^ k) in *. clearbody P.
  pose proof (Z.div_mod M P ltac:(lia)) as Hdm.
  pose proof (Z.mod_pos_bound M P HP) as Hrem.
  assert (Hq : 0 <= M / P) by (apply Z.div_pos; lia).
  set (rem := M mod P) in *. clearbody rem.
  destruct mrs as [m r s]. cbn [shr_m shr_r shr_s] in *. subst m.
  assert (Hs' : 2 * rem = 0 <-> (r || s)%bool = false).
  { rewrite orb_false_iff. destruct r; split.
    - intros H0. lia.
    - intros [? _]. discriminate.
    - intros H0. split; [reflexivity|]. apply Hs. lia.
    - intros [_ H0]. apply Hs in H0. lia. }
  assert (Hgo : forall (p : Z) (b : bool),
             M / P = 2 * p + (if b then 1 else 0) -> 0 <= p ->
             shifted_after M (2 * P) p b (r || s)%bool).
  { intros p b Hp Hp0. unfold shifted_after.
    assert (HM' : M = 2 * P * p + ((if b then P else 0) + rem)) by (destruct b; nia).
    assert (Hb : 0 <= (if b then P else 0) + rem < 2 * P) by (destruct b; lia).
    split; [apply Z.div_unique_pos with ((if b then P else 0) + rem); assumption|].
    exists (2 * rem). split; [lia|]. split; [exact Hs'|].
    rewrite <- (Z.mod_unique_pos M (2 * P) p ((if b then P else 0) + rem)) by assumption.
    destruct b; lia. }
  destruct (M / P) as [|p|p] eqn:HMP; try lia.
  - exact (Hgo 0 false eq_refl ltac:(lia)).
  - destruct p as [p|p|]; cbn [shr_1].
    + exact (Hgo (Z.pos p) true (Pos2Z.inj_xI p) ltac:(lia)).
    + exact (Hgo (Z.pos p) false ltac:(lia) ltac:(lia)).
    + exact (Hgo 0 true eq_refl ltac:(lia)).
Qed.

Lemma shr_exact_shifted M e n :
  0 <= M -> 0 <= n ->
  shifted M n (fst (shr (shr_record_of_loc M loc_Exact) e n)) /\
  snd (shr (shr_record_of_loc M loc_Exact) e n) = e + n.
Proof.
  intros HM Hn.
  assert (H0 : shifted M 0 (shr_record_of_loc M loc_Exact)).
  { unfold shifted, shifted_after. cbn [shr_record_of_loc shr_m shr_r shr_s].
    change (2 ^ 0) with 1. split; [symmetry; apply Z.div_1_r|].
    exists 0. rewrite Z.mod_1_r. repeat split; lia. }
  destruct n as [|p|p]; try lia.
  - cbn [shr fst snd]. split; [exact H0 | lia].
  - cbn [shr fst snd]. split; [|reflexivity].
    apply (iter_pos_invariant shr_1 (shifted M)
             (fun k x Hk => shifted_step M k x HM Hk) p 0); [lia | exact H0].
Qed.

Lemma round_decision M e n :
  0 <= M -> 0 <= n ->
  exists mrs, shr (shr_record_of_loc M loc_Exact) e n = (mrs, e + n) /\
    shr_m mrs = M / 2 ^ n /\
    rounding_rule (M / 2 ^ n) (M mod 2 ^ n) (2 ^ n)
                  (round_nearest_even (shr_m mrs) (loc_of_shr_record mrs)).
Proof.
  intros HM Hn.
  destruct (shr_exact_shifted M e n HM Hn) as [[Hm (t & Ht & Hs & Hr)] He].
  destruct (shr (shr_record_of_loc M loc_Exact) e n) as [mrs e'].
  cbn [fst snd] in *. subst e'. exists mrs. split; [reflexivity|].
  split; [exact Hm|]. rewrite Hm.
  destruct mrs as [m r s]. cbn [shr_r shr_s shr_m loc_of_shr_record] in *.
  unfold rounding_rule. destruct r, s; cbn [round_nearest_even].
  - right; right. split; [|reflexivity].
    assert (t <> 0) by (intros H; apply Hs in H; discriminate). lia.
  - right; left. assert (t = 0) by (apply Hs; reflexivity).
    split; [lia | reflexivity].
  - left. split; [lia | reflexivity].
  - left. split; [lia | reflexivity].
Qed.

Lemma rounding_rule_cases q r g m2 :
  rounding_rule q r g m2 -> m2 = q \/ m2 = q + 1.
Proof.
  intros [[_ ->] | [[_ ->] | [_ ->]]]; auto. destruct (Z.even q); auto.
Qed.

Section RoundNearest.

Variables prec emax : Z.
Hypothesis Hprec : 0 < prec.

(** A mantissa in the format has at most [prec] digits, and exactly
    [prec] above the least exponent. *)
Lemma in_format_bounds m e :
  in_format prec emax m e ->
  0 <= m < 2 ^ prec /\ emin prec emax <= e /\
  (emin prec emax < e -> 2 ^ (prec - 1) <= m).
Proof.
  pose proof (pow2_pos prec ltac:(lia)) as Hp.
  intros [[-> ->] | [Hm Hc]]; [lia|].
  rewrite fexp_eq in Hc.
  destruct (Zdigits2_bounds m Hm) as (Hd & Hlo & Hhi).
  split; [|split].
  - split; [lia|]. apply Z.lt_le_trans with (2 ^ Zdigits2 m); [assumption|].
    apply Z.pow_le_mono_r; lia.
  - lia.
  - intros He. apply Z.le_trans with (2 ^ (Zdigits2 m - 1)); [|assumption].
    apply Z.pow_le_mono_r; lia.
Qed.

Lemma second_shift_exact m1 e1 m2 :
  emin prec emax <= e1 ->
  in_format prec emax m1 e1 ->
  m2 = m1 \/ m2 = m1 + 1 ->
  let n := fexp prec emax (Zdigits2 m2 + e1) - e1 in
  (n <= 0 /\ in_format prec emax m2 e1) \/
  (n = 1 /\ m2 = 2 * (m2 / 2 ^ n) /\ in_format prec emax (m2 / 2 ^ n) (e1 + 1)).
Proof.
  intros He1 H1 H2 n. subst n. unfold in_format in *.
  rewrite ?fexp_eq in *. set (z := emin prec emax) in *. clearbody z.
  destruct H1 as [[-> ->] | [Hm1 Hc]].
  - left. destruct H2 as [-> | ->].
    + change (Zdigits2 0) with 0. split; [lia | left; split; reflexivity].
    + change (Zdigits2 (0 + 1)) with 1. split; [lia | right; lia].
  - destruct H2 as [-> | ->].
    + left. split; [lia|]. right. auto.
    + destruct (Zdigits2_succ m1 Hm1) as [-> | [Hpow Hd]].
      * left. split; [lia|]. right. split; [lia | assumption].
      * pose proof (Zdigits2_bounds m1 Hm1) as (Hd1 & _).
        rewrite Hd.
        destruct (Z.eq_dec (Zdigits2 m1) prec) as [Hp|Hp].
        -- right.
           replace (Z.max (Zdigits2 m1 + 1 + e1 - prec) z - e1) with 1 by lia.
           rewrite Hpow. change (2 ^ 1) with 2.
           assert (Hhalf : 2 ^ Zdigits2 m1 / 2 = 2 ^ (Zdigits2 m1 - 1)).
           { replace (Zdigits2 m1) with (Zdigits2 m1 - 1 + 1) at 1 by lia.
             rewrite pow2_succ by lia. rewrite Z.mul_comm, Z.div_mul; lia. }
           rewrite Hhalf. split; [reflexivity|]. split.
           ++ replace (Zdigits2 m1) with (Zdigits2 m1 - 1 + 1) at 1 by lia.
              apply pow2_succ. lia.
           ++ right. split; [apply pow2_pos; lia|].
              rewrite Zdigits2_pow2 by lia. lia.
        -- left. split; [lia|]. right. split; lia.
Qed.

(** What [binary_round_aux] computes from an exact mantissa: the quotient
    [q] on the grid of the exponent [e1], rounded to [m2], brought back
    into the format as [m3] at [e3], and made a zero, a finite value or an
    infinity. *)
Lemma binary_round_aux_spec sx mx ex :
  0 < mx -> ex <= fexp prec emax (Zdigits2 mx + ex) ->
  let e1 := fexp prec emax (Zdigits2 mx + ex) in
  let q := mx / 2 ^ (e1 - ex) in
  exists m2 m3 e3,
    rounding_rule q (mx mod 2 ^ (e1 - ex)) (2 ^ (e1 - ex)) m2 /\
    in_format prec emax q e1 /\
    ((m3 = m2 /\ e3 = e1) \/ (m2 = 2 * m3 /\ e3 = e1 + 1)) /\
    in_format prec emax m3 e3 /\
    binary_round_aux prec emax sx mx ex loc_Exact
    = match m3 with
      | Z0 => S754_zero sx
      | Z.pos p =>
          if e3 <=? emax - prec then S754_finite sx p e3 else S754_infinity sx
      | Z.neg _ => S754_nan
      end.
Proof.
  intros Hm Hn e1 q. unfold binary_round_aux, shr_fexp. fold e1.
  set (n1 := e1 - ex). fold n1 in q.
  assert (Hn1 : 0 <= n1) by (subst n1; lia).
  destruct (first_shift prec emax Hprec mx ex Hm Hn) as [He1 Hst1].
  fold e1 in He1, Hst1. fold n1 in He1, Hst1. fold q in Hst1.
  replace (ex + n1) with e1 in He1, Hst1 by (subst n1; lia).
  destruct (round_decision mx ex n1 ltac:(lia) Hn1) as (mrs1 & -> & Hm1 & Hrule).
  fold q in Hm1, Hrule.
  replace (ex + n1) with e1 by (subst n1; lia).
  set (m2 := round_nearest_even (shr_m mrs1) (loc_of_shr_record mrs1)) in *.
  pose proof (rounding_rule_cases _ _ _ _ Hrule) as Hm2.
  pose proof (second_shift_exact q e1 m2 He1 Hst1 Hm2) as Hst2. cbn zeta in Hst2.
  set (n2 := fexp prec emax (Zdigits2 m2 + e1) - e1) in *.
  destruct Hst2 as [[Hle Hfmt] | (Hone & Hhalf & Hfmt)].
  - exists m2, m2, e1. split; [exact Hrule|]. split; [exact Hst1|].
    split; [left; split; reflexivity|]. split; [exact Hfmt|].
    rewrite shr_keeps by assumption. reflexivity.
  - exists m2, (m2 / 2 ^ n2), (e1 + 1). split; [exact Hrule|]. split; [exact Hst1|].
    split; [right; split; [exact Hhalf | reflexivity]|]. split; [exact Hfmt|].
    assert (Hm2pos : 0 <= m2) by (destruct Hst1 as [[? _]|[? _]]; lia).
    destruct (shr_shifts (shr_record_of_loc m2 loc_Exact) e1 n2) as [Hm3 He3];
      [cbn; lia | lia |].
    destruct (shr (shr_record_of_loc m2 loc_Exact) e1 n2) as [mrs3 e3].
    cbn [fst snd shr_m shr_record_of_loc] in Hm3, He3. subst e3.
    rewrite Hm3, Hone. reflexivity.
Qed.

End RoundNearest.

(** ** The nearest value on a grid *)

Lemma nearest_on_grid X g q R m2 Zs :
  0 < g -> 0 <= R < g -> X = q * g + R ->
  rounding_rule q R g m2 ->
  Zs <= q * g \/ (q + 1) * g <= Zs ->
  Z.abs (X - m2 * g) <= Z.abs (X - Zs) /\
  (Z.abs (X - m2 * g) = Z.abs (X - Zs) -> Zs <> m2 * g -> Z.even m2 = true).
Proof.
  intros Hg HR HX Hrule Hz.
  assert (Hup : (q + 1) * g = q * g + g) by ring.
  rewrite Hup in Hz. subst X.
  destruct Hrule as [[Hlt ->] | [[Htie ->] | [Hgt ->]]].
  - set (A := q * g) in *. clearbody A. split; [lia|]. intros. lia.
  - destruct (Z.even q) eqn:Hev.
    + set (A := q * g) in *. clearbody A. split; [lia|]. intros. exact Hev.
    + rewrite Hup. set (A := q * g) in *. clearbody A. split; [lia|]. intros.
      rewrite Z.add_1_r, Z.even_succ, <- Z.negb_even, Hev. reflexivity.
  - rewrite Hup. set (A := q * g) in *. clearbody A. split; [lia|]. intros. lia.
Qed.

Lemma pow2_split a b c : c <= a -> a <= b -> 2 ^ (b - c) = 2 ^ (b - a) * 2 ^ (a - c).
Proof.
  intros. rewrite <- Z.pow_add_r by lia. f_equal. lia.
Qed.

Lemma pow2_ge_1 n : 0 <= n -> 1 <= 2 ^ n.
Proof. intros. pose proof (pow2_pos n ltac:(lia)). lia. Qed.

(** No finite binary32 value lies strictly between two neighbours of the
    grid on which a mantissa in the format stands. *)
Lemma off_cell mz ez q e1 c :
  c <= -149 ->
  in_format 24 128 q e1 ->
  bounded 24 128 mz ez = true ->
  Z.pos mz * 2 ^ (ez - c) <= q * 2 ^ (e1 - c) \/
  (q + 1) * 2 ^ (e1 - c) <= Z.pos mz * 2 ^ (ez - c).
Proof.
  intros Hc Hq Hb.
  destruct (in_format_bounds 24 128 ltac:(lia) q e1 Hq) as (Hq24 & He1 & Hq23).
  change (emin 24 128) with (-149) in *. change (24 - 1) with 23 in *.
  apply bounded32_cases in Hb.
  assert (Hz : Z.pos mz < 2 ^ 24 /\ -149 <= ez).
  { change (2 ^ 24) with (2 ^ 23 + 2 ^ 23). lia. }
  clear Hb. destruct Hz as [Hmz Hez].
  pose proof (pow2_pos (e1 - c) ltac:(lia)) as Hg.
  destruct (Z_le_gt_dec e1 ez) as [Hle|Hgt].
  - rewrite (pow2_split e1 ez c) by lia. rewrite Z.mul_assoc.
    set (k := Z.pos mz * 2 ^ (ez - e1)).
    destruct (Z_le_gt_dec k q) as [Hk|Hk].
    + left. apply Z.mul_le_mono_nonneg_r; lia.
    + right. apply Z.mul_le_mono_nonneg_r; lia.
  - left. specialize (Hq23 ltac:(lia)).
    rewrite (pow2_split (ez + 1) e1 c) by lia.
    replace (ez + 1 - c) with (ez - c + 1) by lia.
    rewrite pow2_succ by lia.
    pose proof (pow2_pos (ez - c) ltac:(lia)) as Ha.
    pose proof (pow2_ge_1 (e1 - (ez + 1)) ltac:(lia)) as Hk.
    set (a := 2 ^ (ez - c)) in *. set (k := 2 ^ (e1 - (ez + 1))) in *.
    clearbody a k. change (2 ^ 24) with (2 * 2 ^ 23) in Hmz.
    assert (HB : 0 < 2 ^ 23) by reflexivity.
    set (B := 2 ^ 23) in *. clearbody B.
    apply Z.le_trans with (2 * B * a); [nia|].
    apply Z.le_trans with (B * (k * (2 * a))).
    { assert (0 <= B * a * (k - 1)) by (apply Z.mul_nonneg_nonneg; nia). nia. }
    apply Z.mul_le_mono_nonneg_r; nia.
Qed.

(** ** [binary_round] on a float *)

Lemma pos_iter_xO_value m d : Z.pos (Pos.iter xO m d) = Z.pos m * 2 ^ Z.pos d.
Proof.
  induction d as [|d IH] using Pos.peano_ind.
  - cbn [Pos.iter]. rewrite Pos2Z.inj_xO. change (2 ^ 1) with 2. lia.
  - rewrite Pos.iter_succ, Pos2Z.inj_xO, IH, Pos2Z.inj_succ.
    unfold Z.succ. rewrite pow2_succ by lia. lia.
Qed.

Lemma binary_round_as_aux prec emax s m e :
  exists mz ez,
    binary_round prec emax s m e
    = binary_round_aux prec emax s (Z.pos mz) ez loc_Exact /\
    ez <= e /\
    fexp prec emax (Zdigits2 (Z.pos mz) + ez)
    = fexp prec emax (Z.pos (digits2_pos m) + e) /\
    ez <= fexp prec emax (Z.pos (digits2_pos m) + e) /\
    (ez = e \/ ez = fexp prec emax (Z.pos (digits2_pos m) + e)) /\
    Z.pos mz = Z.pos m * 2 ^ (e - ez).
Proof.
  unfold binary_round, shl_align.
  set (e1 := fexp prec emax (Z.pos (digits2_pos m) + e)).
  destruct (e1 - e) as [|d|d] eqn:Hd.
  - exists m, e. cbn [Zdigits2]. rewrite Z.sub_diag.
    repeat split; try reflexivity; try lia; auto.
  - exists m, e. cbn [Zdigits2]. rewrite Z.sub_diag.
    repeat split; try reflexivity; try lia; auto.
  - exists (Pos.iter xO m d), e1. cbn [Zdigits2].
    rewrite digits2_pos_iter_xO, Pos2Z.inj_add, pos_iter_xO_value.
    replace (e - e1) with (Z.pos d) by lia.
    replace (Z.pos (digits2_pos m) + Z.pos d + e1) with (Z.pos (digits2_pos m) + e) by lia.
    fold e1. repeat split; try reflexivity; try lia; auto.
Qed.

Lemma rounding_rule_scale q r g m2 a :
  0 < a -> rounding_rule q r g m2 -> rounding_rule q (r * a) (g * a) m2.
Proof.
  intros Ha [[H ->] | [[H ->] | [H ->]]].
  - left. split; [nia | reflexivity].
  - right; left. split; [nia | reflexivity].
  - right; right. split; [nia | reflexivity].
Qed.

(** What [binary_round] computes, in a unit [2^c] in which the float and
    all values of the format are integers. *)
Lemma binary_round_spec prec emax s m e c :
  0 < prec -> c <= e -> c <= emin prec emax ->
  exists e1 q R m2 m3 e3,
    Z.pos m * 2 ^ (e - c) = q * 2 ^ (e1 - c) + R /\
    0 <= R < 2 ^ (e1 - c) /\
    rounding_rule q R (2 ^ (e1 - c)) m2 /\
    in_format prec emax q e1 /\
    ((m3 = m2 /\ e3 = e1) \/ (m2 = 2 * m3 /\ e3 = e1 + 1)) /\
    in_format prec emax m3 e3 /\
    binary_round prec emax s m e
    = match m3 with
      | Z0 => S754_zero s
      | Z.pos p =>
          if e3 <=? emax - prec then S754_finite s p e3 else S754_infinity s
      | Z.neg _ => S754_nan
      end.
Proof.
  intros Hprec Hce Hcm.
  destruct (binary_round_as_aux prec emax s m e)
    as (mz & ez & -> & Hez & Hfe & Hle & Hor & Hmz).
  set (e1 := fexp prec emax (Z.pos (digits2_pos m) + e)) in *.
  assert (He1 : emin prec emax <= e1) by (subst e1; rewrite fexp_eq; lia).
  destruct (binary_round_aux_spec prec emax Hprec s (Z.pos mz) ez ltac:(lia))
    as (m2 & m3 & e3 & Hrule & Hq & Halt & Hfmt & Hres); [rewrite Hfe; exact Hle|].
  cbv zeta in *. rewrite Hfe in *. fold e1 in Hrule, Hq, Halt, Hres.
  assert (Hcz : c <= ez) by lia.
  pose proof (pow2_pos (ez - c) ltac:(lia)) as Ha.
  pose proof (pow2_pos (e1 - ez) ltac:(lia)) as Hn.
  exists e1, (Z.pos mz / 2 ^ (e1 - ez)), (Z.pos mz mod 2 ^ (e1 - ez) * 2 ^ (ez - c)),
         m2, m3, e3.
  rewrite (pow2_split ez e1 c) by lia.
  pose proof (Z.div_mod (Z.pos mz) (2 ^ (e1 - ez)) ltac:(lia)) as Hdm.
  pose proof (Z.mod_pos_bound (Z.pos mz) (2 ^ (e1 - ez)) Hn) as Hrem.
  split.
  { rewrite (pow2_split ez e c) by lia. rewrite Z.mul_assoc, <- Hmz.
    rewrite Hdm at 1. ring. }
  split; [nia|].
  split; [apply rounding_rule_scale; assumption|].
  split; [exact Hq|]. split; [exact Halt|]. split; [exact Hfmt | exact Hres].
Qed.

(** ** The cast rounds to the nearest binary32 value *)

(** Whether a rounded mantissa at its exponent is beyond the binary32
    range, in terms of the value [X = q * g + R] that was rounded, where
    [h] is [2^103] in the unit of [X]. *)
Lemma range_decision X g h q R m2 m3 e1 e3 :
  0 < h ->
  (e1 <= 103 -> exists k, 1 <= k /\ h = k * g) ->
  (e1 = 104 -> g = 2 * h) ->
  (105 <= e1 -> exists k, 1 <= k /\ g = 4 * k * h) ->
  0 < g -> 0 <= R < g -> X = q * g + R ->
  rounding_rule q R g m2 ->
  in_format 24 128 q e1 ->
  (m3 = m2 /\ e3 = e1) \/ (m2 = 2 * m3 /\ e3 = e1 + 1) ->
  in_format 24 128 m3 e3 ->
  (104 < e3 /\ 0 < m3 /\ (2 ^ 25 - 1) * h <= X) \/
  ((e3 <= 104 \/ m3 = 0) /\ X < (2 ^ 25 - 1) * h).
Proof.
  intros Hh Hlow Hmid Hhigh Hg HR HX Hrule Hq Halt Hfmt.
  pose proof (rounding_rule_cases _ _ _ _ Hrule) as Hm2.
  destruct (in_format_bounds 24 128 ltac:(lia) q e1 Hq) as (Hq24 & He1 & Hq23).
  destruct (in_format_bounds 24 128 ltac:(lia) m3 e3 Hfmt) as (Hm24 & He3 & Hm23).
  change (emin 24 128) with (-149) in *. change (24 - 1) with 23 in *.
  change (2 ^ 25) with 33554432. change (2 ^ 24) with 16777216 in *.
  change (2 ^ 23) with 8388608 in *.
  destruct (Z_le_gt_dec e1 103) as [Hc|Hc]; [|destruct (Z.eq_dec e1 104) as [Hc'|Hc']].
  - (* the grid is fine enough: the value is below 2^127 *)
    right. split; [lia|].
    destruct (Hlow Hc) as (k & Hk & ->).
    assert (q * g + R < 16777216 * g) by nia.
    assert (16777216 * g <= 16777216 * (k * g)) by nia.
    lia.
  - (* the last binade *)
    specialize (Hmid Hc'). subst g. specialize (Hq23 ltac:(lia)).
    destruct Halt as [[-> ->] | [Hdouble ->]].
    + right. split; [lia|].
      destruct Hrule as [[Hlt Hm] | [[Htie Hm] | [Hgt Hm]]].
      * nia.
      * destruct (Z.even q) eqn:Hev.
        -- assert (q <> 16777215) by (intros ->; discriminate). nia.
        -- nia.
      * nia.
    + left. specialize (Hm23 ltac:(lia)). split; [lia|]. split; [lia|].
      assert (Hq' : q = 16777215) by lia. subst q.
      destruct Hrule as [[Hlt Hm] | [[Htie Hm] | [Hgt Hm]]].
      * lia.
      * nia.
      * nia.
  - (* beyond the last binade *)
    left. specialize (Hq23 ltac:(lia)).
    destruct (Hhigh ltac:(lia)) as (k & Hk & ->).
    assert (0 < m3) by (destruct Halt as [[-> _] | [? _]]; lia).
    split; [destruct Halt as [[_ ->] | [_ ->]]; lia|]. split; [assumption|].
    assert (8388608 * (4 * k * h) <= q * (4 * k * h)) by nia.
    assert (33554432 * h <= 8388608 * (4 * k * h)) by nia.
    lia.
Qed.

Lemma double_to_single_rounds s m e :
  IEEE754.rounds_to (PyStruct.B754_finite s m e)
                    (PyStruct.double_to_single (PyStruct.B754_finite s m e)).
Proof.
  unfold IEEE754.rounds_to, IEEE754.beyond_range, IEEE754.nearest_binary32.
  cbn [IEEE754.unit_of IEEE754.scaled IEEE754.sign_of PyStruct.double_to_single].
  set (c := Z.min e (-149)).
  assert (Hce : c <= e) by (subst c; lia).
  assert (Hcm : c <= -149) by (subst c; lia).
  destruct (binary_round_spec 24 128 s m e c ltac:(lia) Hce Hcm)
    as (e1 & q & R & m2 & m3 & e3 & HX & HR & Hrule & Hq & Halt & Hfmt & Hres).
  unfold PyStruct.prec32, PyStruct.emax32. rewrite Hres. clear Hres.
  change (128 - 24) with 104.
  pose proof (pow2_pos (e - c) ltac:(lia)) as Hpe.
  set (X := Z.pos m * 2 ^ (e - c)) in *.
  assert (HXpos : 0 < X) by (subst X; lia).
  assert (Habs : Z.abs ((if s then -1 else 1) * X) = X) by (destruct s; lia).
  rewrite Habs.
  destruct (in_format_bounds 24 128 ltac:(lia) q e1 Hq) as (Hq24 & He1 & Hq23).
  change (emin 24 128) with (-149) in He1.
  pose proof (pow2_pos (103 - c) ltac:(lia)) as Hh.
  pose proof (pow2_pos (e1 - c) ltac:(lia)) as Hg.
  destruct (range_decision X (2 ^ (e1 - c)) (2 ^ (103 - c)) q R m2 m3 e1 e3)
    as [(He3 & Hm3 & Hbig) | (Hsmall & Hlt)]; try assumption.
  { intros H. exists (2 ^ (103 - e1)). split; [apply pow2_ge_1; lia|].
    apply pow2_split; lia. }
  { intros ->. replace (104 - c) with (103 - c + 1) by lia. apply pow2_succ. lia. }
  { intros H. exists (2 ^ (e1 - 105)). split; [apply pow2_ge_1; lia|].
    rewrite (pow2_split 103 e1 c) by lia.
    replace (e1 - 103) with (e1 - 105 + 1 + 1) by lia.
    rewrite !pow2_succ by lia. ring. }
  - (* beyond the range *)
    left. split; [exact Hbig|].
    destruct m3 as [|p|p]; try lia.
    destruct (Z.leb_spec e3 104); [lia | reflexivity].
  - (* within the range *)
    right. split; [lia|].
    destruct (in_format_bounds 24 128 ltac:(lia) m3 e3 Hfmt) as (Hm24 & He3 & Hm23).
    change (emin 24 128) with (-149) in *. change (24 - 1) with 23 in *.
    pose proof (rounding_rule_cases _ _ _ _ Hrule) as Hm2.
    (* the value of the result *)
    assert (HY : m3 * 2 ^ (e3 - c) = m2 * 2 ^ (e1 - c)).
    { destruct Halt as [[-> ->] | [-> ->]]; [reflexivity|].
      replace (e1 + 1 - c) with (e1 - c + 1) by lia.
      rewrite pow2_succ by lia. ring. }
    (* its mantissa is even when that of the rounding is *)
    assert (Hev : Z.even m2 = true -> Z.even m3 = true).
    { destruct Halt as [[-> _] | [Hd He]]; [auto|]. intros _.
      specialize (Hm23 ltac:(lia)).
      change (2 ^ 24) with 16777216 in *. change (2 ^ 23) with 8388608 in *.
      assert (m3 = 8388608) by lia. subst m3. reflexivity. }
    assert (Hnear : forall Zs,
               Zs <= q * 2 ^ (e1 - c) \/ (q + 1) * 2 ^ (e1 - c) <= Zs ->
               Z.abs (X - m3 * 2 ^ (e3 - c)) <= Z.abs (X - Zs) /\
               (Z.abs (X - m3 * 2 ^ (e3 - c)) = Z.abs (X - Zs) ->
                Zs <> m3 * 2 ^ (e3 - c) -> Z.even m3 = true)).
    { intros Zs HZs. rewrite HY.
      destruct (nearest_on_grid X _ q R m2 Zs Hg HR HX Hrule HZs) as [H1 H2].
      split; [exact H1 | intros; apply Hev; apply H2; assumption]. }
    assert (Hcell : forall z, IEEE754.is_finite z = true ->
               IEEE754.is_binary32 z = true ->
               (if s then -1 else 1) * IEEE754.scaled c z <= q * 2 ^ (e1 - c) \/
               (q + 1) * 2 ^ (e1 - c) <= (if s then -1 else 1) * IEEE754.scaled c z).
    { intros z Hzf Hzb.
      assert (H0 : 0 <= q * 2 ^ (e1 - c)) by (apply Z.mul_nonneg_nonneg; lia).
      destruct z as [sz|sz|sz pz|sz mz ez]; try discriminate;
        cbn [IEEE754.scaled IEEE754.is_binary32] in *.
      - left. destruct s; lia.
      - pose proof (off_cell mz ez q e1 c Hcm Hq Hzb) as Hoff.
        assert (0 < Z.pos mz * 2 ^ (ez - c)).
        { apply Z.mul_pos_pos; [lia|]. apply pow2_pos.
          apply bounded32_cases in Hzb. lia. }
        destruct s, sz; lia. }
    destruct m3 as [|p|p]; try lia.
    + (* a zero *)
      cbn [PyStruct.of_spec_float].
      split; [reflexivity|]. split; [reflexivity|]. split; [reflexivity|].
      intros z Hzf Hzb. cbn [IEEE754.scaled IEEE754.even_mantissa]. cbv zeta.
      destruct (Hnear _ (Hcell z Hzf Hzb)) as [H1 H2].
      split; [destruct s; lia | reflexivity].
    + (* a finite value *)
      assert (He3' : (e3 <=? 104) = true) by (apply Z.leb_le; lia).
      rewrite He3'. cbn [PyStruct.of_spec_float].
      split; [reflexivity|]. split.
      { cbn [IEEE754.is_binary32]. unfold bounded, canonical_mantissa.
        change (128 - 24) with 104. rewrite He3', andb_true_r. apply Z.eqb_eq.
        destruct Hfmt as [[? _] | [_ Hc]]; [lia | exact Hc]. }
      split; [reflexivity|].
      intros z Hzf Hzb. cbn [IEEE754.scaled IEEE754.even_mantissa]. cbv zeta.
      destruct (Hnear _ (Hcell z Hzf Hzb)) as [H1 H2].
      set (Y := Z.pos p * 2 ^ (e3 - c)) in *.
      set (Zs := IEEE754.scaled c z) in *.
      split; [destruct s; lia|].
      intros Heq Hne. apply H2; destruct s; lia.
Qed.

Lemma double_to_single_converts x :
  IEEE754.converts_to x (PyStruct.double_to_single x).
Proof.
  destruct x as [s|s|s payload|s m e]; try reflexivity.
  - cbn [PyStruct.double_to_single IEEE754.converts_to].
    exists (PyStruct.quiet_payload payload).
    split; [reflexivity | apply quiet_payload_bounds].
  - apply double_to_single_rounds.
Qed.

Lemma np_float_pattern x :
  exists y, IEEE754.converts_to x y /\
            IEEE754.pattern_of y (le_combine (PyStruct.np_float x)).
Proof.
  exists (PyStruct.double_to_single x). split; [apply double_to_single_converts|].
  unfold PyStruct.np_float.
  pose proof (bits_of_single_pattern _ (double_to_single_is_binary32 x)) as Hp.
  rewrite le_combine_split. change (Z.of_nat 4 * 8) with 32.
  rewrite Z.mod_small by apply Hp. exact Hp.
Qed.

Lemma concat_chunks4_flat_map (v : list PyStruct.float) :
  concat (chunks4 (length v) (flat_map PyStruct.np_float v))
  = flat_map PyStruct.np_float v.
Proof.
  rewrite chunks4_flat_map. symmetry. apply flat_map_concat_map.
Qed.

Lemma flat_map_np_float_single v :
  flat_map PyStruct.np_float v
  = flat_map (fun y => le_split 4 (PyStruct.bits_of_single y))
             (map PyStruct.double_to_single v).
Proof.
  induction v as [|x v IH]; [reflexivity|].
  cbn [map flat_map]. rewrite IH. reflexivity.
Qed.

(** * The encoder *)

(** C6.  For every list of floats, [serialize_f32] returns; the bytes are
    four times as many as the components and are the groups of four bytes
    one after the other, with nothing before, between or after them; and
    the [k]-th group, read as a little-endian word, is the IEEE-754
    binary32 interchange pattern (sign bit, 8 bits of biased exponent, 23
    bits of fraction) of the binary32 value of the [k]-th component: the
    nearest binary32 value, ties to even, or the infinity of its sign
    from [2^128 - 2^103] on; a NaN of the same sign for a NaN. *)
Theorem serialize_f32_layout :
  forall vector : list PyStruct.float,
    exists b : bytes,
      serialize_f32 vector = OK b /\
      length b = (4 * length vector)%nat /\
      concat (chunks4 (length vector) b) = b /\
      Forall2 (fun x group =>
                 length group = 4%nat /\
                 exists y, IEEE754.converts_to x y /\
                           IEEE754.pattern_of y (le_combine group))
              vector (chunks4 (length vector) b).
Proof.
  intros v. exists (flat_map PyStruct.np_float v).
  split; [apply serialize_f32_eq|]. split; [apply flat_map_np_float_length|].
  split; [apply concat_chunks4_flat_map|].
  rewrite chunks4_flat_map.
  induction v as [|x v IH]; cbn [map]; constructor; [|exact IH].
  split; [apply np_float_length | apply np_float_pattern].
Qed.

Example serialize_f32_1_2 :
  serialize_f32 [PyStruct.float_of_Z 1; PyStruct.float_of_Z 2]
  = OK [Byte.x00; Byte.x00; Byte.x80; Byte.x3f; Byte.x00; Byte.x00; Byte.x00; Byte.x40].
Proof. vm_compute. reflexivity. Qed.

(** The encoder on one tenth, on the least subnormal, on a value beyond the
    binary32 range, on minus zero, on the NaN of [float("nan")], on the
    NaN of [-float("nan")] and on a tie (2^24 + 1). *)
Example np_float_samples :
  map PyStruct.np_float
      [PyStruct.B754_finite false 7205759403792794 (-56);
       PyStruct.B754_finite false 4503599627370496 (-201);
       PyStruct.B754_finite false 4503599627370496 148;
       PyStruct.B754_zero true;
       PyStruct.B754_nan false 2251799813685248;
       PyStruct.B754_nan true 2251799813685248;
       PyStruct.float_of_Z 16777217]
  = [[Byte.xcd; Byte.xcc; Byte.xcc; Byte.x3d];
     [Byte.x01; Byte.x00; Byte.x00; Byte.x00];
     [Byte.x00; Byte.x00; Byte.x80; Byte.x7f];
     [Byte.x00; Byte.x00; Byte.x00; Byte.x80];
     [Byte.x00; Byte.x00; Byte.xc0; Byte.x7f];
     [Byte.x00; Byte.x00; Byte.xc0; Byte.xff];
     [Byte.x00; Byte.x00; Byte.x80; Byte.x4b]].
Proof. vm_compute. reflexivity. Qed.

(** X13.  The encoding of a list of floats is the encodings of its parts,
    one after the other: [serialize_f32] of [v1 ++ v2] is the bytes of
    [v1] followed by the bytes of [v2]. *)
Theorem serialize_f32_app :
  forall v1 v2 : list PyStruct.float,
    exists b1 b2 : bytes,
      serialize_f32 v1 = OK b1 /\
      serialize_f32 v2 = OK b2 /\
      serialize_f32 (v1 ++ v2) = OK (b1 ++ b2).
Proof.
  intros v1 v2.
  exists (flat_map PyStruct.np_float v1), (flat_map PyStruct.np_float v2).
  rewrite !serialize_f32_eq, flat_map_app. auto.
Qed.

Lemma serialize_f32_eq_cast (v1 v2 : list PyStruct.float) :
  serialize_f32 v1 = serialize_f32 v2 <->
  map PyStruct.double_to_single v1 = map PyStruct.double_to_single v2.
Proof.
  rewrite !serialize_f32_eq. split.
  - intros [= H].
    assert (Hlen : length v1 = length v2).
    { apply (f_equal (@length byte)) in H.
      rewrite !flat_map_np_float_length in H. lia. }
    pose proof (decode_flat_map v1) as H1.
    rewrite H, Hlen, decode_flat_map in H1. congruence.
  - intros H. rewrite !flat_map_np_float_single, H. reflexivity.
Qed.

Example serialize_f32_nan_signs :
  serialize_f32 [PyStruct.B754_nan true 2251799813685248]
  <> serialize_f32 [PyStruct.B754_nan false 2251799813685248].
Proof. vm_compute. discriminate. Qed.

(** ** Values beyond the binary32 range *)

Lemma binary_round_aux_overflow sx mx ex lx :
  0 < mx ->
  ex <= fexp 24 128 (Zdigits2 mx + ex) ->
  104 < fexp 24 128 (Zdigits2 mx + ex) ->
  binary_round_aux 24 128 sx mx ex lx = S754_infinity sx.
Proof.
  intros Hm Hn Hbig. unfold binary_round_aux, shr_fexp.
  set (n1 := fexp 24 128 (Zdigits2 mx + ex) - ex) in *.
  assert (Hn1 : 0 <= n1) by (subst n1; lia).
  destruct (first_shift 24 128 ltac:(lia) mx ex Hm Hn) as [He1 Hst1].
  fold n1 in He1, Hst1.
  assert (Hsh1 : shr_m (fst (shr (shr_record_of_loc mx lx) ex n1)) = mx / 2 ^ n1 /\
                 snd (shr (shr_record_of_loc mx lx) ex n1) = ex + n1).
  { destruct (Z.eq_dec n1 0) as [->|Hne].
    - rewrite shr_keeps by lia. cbn [fst snd].
      rewrite shr_record_of_loc_m, Z.div_1_r. lia.
    - destruct (shr_shifts (shr_record_of_loc mx lx) ex n1) as [H1 H2];
        [rewrite shr_record_of_loc_m; lia | lia |].
      rewrite shr_record_of_loc_m in H1. auto. }
  destruct (shr (shr_record_of_loc mx lx) ex n1) as [mrs1 e1].
  cbn [fst snd] in Hsh1. destruct Hsh1 as [Hm1 ->].
  set (m2 := round_nearest_even (shr_m mrs1) (loc_of_shr_record mrs1)).
  assert (Hm2 : m2 = mx / 2 ^ n1 \/ m2 = mx / 2 ^ n1 + 1).
  { rewrite <- Hm1. apply round_nearest_even_cases. }
  pose proof (second_shift 24 128 ltac:(lia) _ _ m2 He1 Hst1 Hm2) as Hst2.
  cbn zeta in Hst2.
  set (n2 := fexp 24 128 (Zdigits2 m2 + (ex + n1)) - (ex + n1)) in *.
  assert (He : ex + n1 = fexp 24 128 (Zdigits2 mx + ex)) by (subst n1; lia).
  assert (Hpos1 : 0 < mx / 2 ^ n1).
  { destruct Hst1 as [[_ Hmin] | [H _]]; [|assumption].
    exfalso. change (emin 24 128) with (-149) in Hmin. lia. }
  assert (Hm2pos : 0 < m2) by lia.
  destruct Hst2 as [[Hle _] | (Hlt & Hpos & _)].
  - rewrite shr_keeps by assumption. cbn [shr_m shr_record_of_loc].
    destruct m2 as [|p|p]; try lia.
    change (128 - 24) with 104.
    destruct (Z.leb_spec (ex + n1) 104); [lia | reflexivity].
  - destruct (shr_shifts (shr_record_of_loc m2 loc_Exact) (ex + n1) n2) as [Hm3 He3];
      [cbn; lia | assumption |].
    destruct (shr (shr_record_of_loc m2 loc_Exact) (ex + n1) n2) as [mrs3 e3].
    cbn [fst snd shr_m shr_record_of_loc] in Hm3, He3. subst e3.
    rewrite Hm3. destruct (m2 / 2 ^ n2) as [|p|p]; try lia.
    change (128 - 24) with 104.
    destruct (Z.leb_spec (ex + n1 + n2) 104); [lia | reflexivity].
Qed.

Lemma binary_round_overflow sx mx ex :
  129 <= Z.pos (digits2_pos mx) + ex ->
  binary_round 24 128 sx mx ex = S754_infinity sx.
Proof.
  intros Hbig. unfold binary_round, shl_align.
  assert (Hf : fexp 24 128 (Z.pos (digits2_pos mx) + ex)
               = Z.pos (digits2_pos mx) + ex - 24).
  { rewrite fexp_eq. change (emin 24 128) with (-149). lia. }
  rewrite Hf.
  destruct (Z.pos (digits2_pos mx) + ex - 24 - ex) as [|d|d] eqn:Hd.
  - apply binary_round_aux_overflow; [lia | |]; cbn [Zdigits2]; rewrite Hf; lia.
  - apply binary_round_aux_overflow; [lia | |]; cbn [Zdigits2]; rewrite Hf; lia.
  - assert (Hf' : fexp 24 128
                    (Z.pos (digits2_pos (Pos.iter xO mx d))
                     + (Z.pos (digits2_pos mx) + ex - 24))
                  = Z.pos (digits2_pos mx) + ex - 24).
    { rewrite digits2_pos_iter_xO, Pos2Z.inj_add.
      replace (Z.pos (digits2_pos mx) + Z.pos d + (Z.pos (digits2_pos mx) + ex - 24))
        with (Z.pos (digits2_pos mx) + ex) by lia.
      exact Hf. }
    apply binary_round_aux_overflow; [lia | |]; cbn [Zdigits2]; rewrite Hf'; lia.
Qed.

(** X15.  A finite float of magnitude [2^128] or more is beyond the
    binary32 range: [serialize_f32] raises nothing and stores the
    infinity of its sign. *)
Theorem serialize_f32_beyond_range :
  forall (s : bool) (m : positive) (e : Z),
    0 <= e ->
    2 ^ 128 <= Z.pos m * 2 ^ e ->
    serialize_f32 [PyStruct.B754_finite s m e]
    = OK [Byte.x00; Byte.x00; Byte.x80; if s then Byte.xff else Byte.x7f].
Proof.
  intros s m e He Hbig.
  assert (Hd : 129 <= Z.pos (digits2_pos m) + e).
  { pose proof (digits2_pos_bounds m) as [_ Hhi].
    pose proof (pow2_pos e He) as Hpe.
    assert (Hlt : 2 ^ 128 < 2 ^ (Z.pos (digits2_pos m) + e)).
    { rewrite Z.pow_add_r by lia.
      apply Z.le_lt_trans with (Z.pos m * 2 ^ e); [assumption|].
      apply Z.mul_lt_mono_pos_r; assumption. }
    apply Z.pow_lt_mono_r_iff in Hlt; lia. }
  rewrite serialize_f32_eq. cbn [flat_map]. unfold PyStruct.np_float.
  cbn [PyStruct.double_to_single].
  unfold PyStruct.prec32, PyStruct.emax32.
  rewrite (binary_round_overflow s m e Hd).
  destruct s; reflexivity.
Qed.

Lemma serialize_f32_beyond_range_witness :
  serialize_f32 [PyStruct.B754_finite true 4503599627370496 148]
  = OK [Byte.x00; Byte.x00; Byte.x80; Byte.xff].
Proof.
  apply (serialize_f32_beyond_range true 4503599627370496 148).
  - lia.
  - vm_compute. discriminate.
Defined.

(** * The round trip of the codec *)

(** The claim as stated fails: the component [2^200] is finite, and what
    decoding its encoding gives is an infinity, which is no finite value
    and so not the nearest one. *)
Lemma decode_serialize_f32_beyond_range :
  exists b : bytes,
    serialize_f32 [PyStruct.B754_finite false 4503599627370496 148] = OK b /\
    VectorCodec.decode b 1 = inr [PyStruct.B754_infinity false] /\
    IEEE754.is_finite (PyStruct.B754_finite false 4503599627370496 148) = true /\
    ~ IEEE754.nearest_binary32 (PyStruct.B754_finite false 4503599627370496 148)
                               (PyStruct.B754_infinity false).
Proof.
  exists [Byte.x00; Byte.x00; Byte.x80; Byte.x7f].
  split; [vm_compute; reflexivity|]. split; [vm_compute; reflexivity|].
  split; [reflexivity|]. intros [Hfin _]. discriminate.
Qed.

(** C7, amended.  For every list of floats, [serialize_f32] returns, and
    decoding its bytes with the length of the list gives as many values,
    the [k]-th being the binary32 value of the [k]-th component: for a
    finite component of magnitude below [2^128 - 2^103] the nearest
    binary32 value, ties to even; for a finite component of that magnitude
    or more the infinity of its sign; a zero or an infinity as it is.  A
    finite component that is a binary32 value comes back as it is. *)
Theorem decode_serialize_f32 :
  forall vector : list PyStruct.float,
    exists (b : bytes) (decoded : list PyStruct.float),
      serialize_f32 vector = OK b /\
      VectorCodec.decode b (length vector) = inr decoded /\
      Forall2 IEEE754.converts_to vector decoded /\
      Forall2 (fun x y => IEEE754.is_finite x = true ->
                          IEEE754.is_binary32 x = true -> y = x)
              vector decoded.
Proof.
  intros v.
  exists (flat_map PyStruct.np_float v), (map PyStruct.double_to_single v).
  split; [apply serialize_f32_eq|]. split; [apply decode_flat_map|]. split.
  - induction v as [|x v IH]; cbn [map]; constructor;
      [apply double_to_single_converts | exact IH].
  - induction v as [|x v IH]; cbn [map]; constructor; [|exact IH].
    intros Hf Hb. apply double_to_single_exact; assumption.
Qed.

Example decode_serialize_f32_1_2_3 :
  match serialize_f32 (map PyStruct.float_of_Z [1; 2; 3]) with
  | OK b => VectorCodec.decode b 3
  | Raise _ => inr []
  end
  = inr [PyStruct.B754_finite false 8388608 (-23);
         PyStruct.B754_finite false 8388608 (-22);
         PyStruct.B754_finite false 12582912 (-22)].
Proof. vm_compute. reflexivity. Qed.

(** A list of another length than the one given is refused. *)
Example decode_malformed :
  VectorCodec.decode [Byte.x00; Byte.x00; Byte.x80] 1
  = inl VectorCodec.MalformedVectorError.
Proof. reflexivity. Qed.

(** ** The binary32 value and its pattern are determined *)



(** A value has one mantissa and one exponent in the format. *)
Lemma in_format_unique m e m' e' c :
  in_format 24 128 m e -> in_format 24 128 m' e' ->
  0 < m -> 0 < m' -> c <= -149 ->
  m * 2 ^ (e - c) = m' * 2 ^ (e' - c) ->
  m = m' /\ e = e'.
Proof.
  intros Hf Hf' Hm Hm' Hc Hv.
  destruct (in_format_bounds 24 128 ltac:(lia) m e Hf) as (H24 & He & H23).
  destruct (in_format_bounds 24 128 ltac:(lia) m' e' Hf') as (H24' & He' & H23').
  change (emin 24 128) with (-149) in *. change (24 - 1) with 23 in *.
  change (2 ^ 24) with 16777216 in *. change (2 ^ 23) with 8388608 in *.
  assert (Hgo : forall a ea b eb,
             0 < a < 16777216 -> 0 < b -> -149 <= ea -> ea < eb ->
             (-149 < eb -> 8388608 <= b) ->
             a * 2 ^ (ea - c) = b * 2 ^ (eb - c) -> False).
  { intros a ea b eb Ha Hb Hea Hlt Hnorm Heq.
    specialize (Hnorm ltac:(lia)).
    rewrite (pow2_split (ea + 1) eb c) in Heq by lia.
    replace (ea + 1 - c) with (ea - c + 1) in Heq by lia.
    rewrite pow2_succ in Heq by lia.
    pose proof (pow2_pos (ea - c) ltac:(lia)) as Hu.
    pose proof (pow2_ge_1 (eb - (ea + 1)) ltac:(lia)) as Hk.
    set (u := 2 ^ (ea - c)) in *. set (k := 2 ^ (eb - (ea + 1))) in *.
    clearbody u k.
    assert (H1 : a = b * k * 2) by nia.
    nia. }
  destruct (Z.lt_trichotomy e e') as [Hlt | [Heq | Hgt]].
  - exfalso. apply (Hgo m e m' e'); auto; lia.
  - subst e'. split; [|reflexivity].
    pose proof (pow2_pos (e - c) ltac:(lia)). nia.
  - exfalso. apply (Hgo m' e' m e); auto; lia.
Qed.

(** After an even mantissa in the format comes an odd one in the format. *)
Lemma next_in_format q e1 :
  in_format 24 128 q e1 -> Z.even q = true -> in_format 24 128 (q + 1) e1.
Proof.
  intros [[-> ->] | [Hq Hc]] Hev.
  - right. split; [lia | reflexivity].
  - right. split; [lia|].
    destruct (Zdigits2_succ q Hq) as [-> | [Hpow _]]; [exact Hc|].
    exfalso. destruct (Zdigits2_bounds q Hq) as (Hd & _).
    assert (Hodd : Z.even (q + 1) = false).
    { rewrite Z.add_1_r, Z.even_succ, <- Z.negb_even, Hev. reflexivity. }
    rewrite Hpow, Z.even_pow in Hodd by assumption. discriminate.
Qed.

Lemma is_binary32_in_format s m e :
  IEEE754.is_binary32 (PyStruct.B754_finite s m e) = true ->
  in_format 24 128 (Z.pos m) e.
Proof.
  cbn [IEEE754.is_binary32]. unfold bounded, canonical_mantissa.
  rewrite andb_true_iff, Z.eqb_eq. intros [Hc _].
  right. split; [lia | exact Hc].
Qed.

(** The nearest binary32 value is the one that the cast gives. *)
Lemma nearest_binary32_unique s m e y :
  ~ IEEE754.beyond_range (PyStruct.B754_finite s m e) ->
  IEEE754.nearest_binary32 (PyStruct.B754_finite s m e) y ->
  y = PyStruct.double_to_single (PyStruct.B754_finite s m e).
Proof.
  unfold IEEE754.beyond_range, IEEE754.nearest_binary32.
  cbn [IEEE754.unit_of IEEE754.scaled IEEE754.sign_of PyStruct.double_to_single].
  set (c := Z.min e (-149)).
  assert (Hce : c <= e) by (subst c; lia).
  assert (Hcm : c <= -149) by (subst c; lia).
  destruct (binary_round_spec 24 128 s m e c ltac:(lia) Hce Hcm)
    as (e1 & q & R & m2 & m3 & e3 & HX & HR & Hrule & Hq & Halt & Hfmt & Hres).
  unfold PyStruct.prec32, PyStruct.emax32. rewrite Hres. clear Hres.
  change (128 - 24) with 104.
  pose proof (pow2_pos (e - c) ltac:(lia)) as Hpe.
  set (X := Z.pos m * 2 ^ (e - c)) in *.
  assert (HXpos : 0 < X) by (subst X; lia).
  assert (Habs : Z.abs ((if s then -1 else 1) * X) = X) by (destruct s; lia).
  rewrite Habs.
  destruct (in_format_bounds 24 128 ltac:(lia) q e1 Hq) as (Hq24 & He1 & Hq23).
  change (emin 24 128) with (-149) in He1.
  pose proof (pow2_pos (103 - c) ltac:(lia)) as Hh.
  pose proof (pow2_pos (e1 - c) ltac:(lia)) as Hg.
  intros Hin (Hyf & Hyb & Hys & Hy).
  destruct (range_decision X (2 ^ (e1 - c)) (2 ^ (103 - c)) q R m2 m3 e1 e3)
    as [(_ & _ & Hbig) | (Hsmall & _)]; try assumption.
  { intros H. exists (2 ^ (103 - e1)). split; [apply pow2_ge_1; lia|].
    apply pow2_split; lia. }
  { intros ->. replace (104 - c) with (103 - c + 1) by lia. apply pow2_succ. lia. }
  { intros H. exists (2 ^ (e1 - 105)). split; [apply pow2_ge_1; lia|].
    rewrite (pow2_split 103 e1 c) by lia.
    replace (e1 - 103) with (e1 - 105 + 1 + 1) by lia.
    rewrite !pow2_succ by lia. ring. }
  { contradiction. }
  destruct (in_format_bounds 24 128 ltac:(lia) m3 e3 Hfmt) as (Hm24 & He3 & Hm23).
  change (emin 24 128) with (-149) in *. change (24 - 1) with 23 in *.
  assert (HY : m3 * 2 ^ (e3 - c) = m2 * 2 ^ (e1 - c)).
  { destruct Halt as [[-> ->] | [-> ->]]; [reflexivity|].
    replace (e1 + 1 - c) with (e1 - c + 1) by lia.
    rewrite pow2_succ by lia. ring. }
  (* the magnitude of [y], off the cell of [X] *)
  assert (Hmag : exists Y, IEEE754.scaled c y = (if s then -1 else 1) * Y /\ 0 <= Y /\
             (Y <= q * 2 ^ (e1 - c) \/ (q + 1) * 2 ^ (e1 - c) <= Y) /\
             (Y = 0 -> y = PyStruct.B754_zero s) /\
             (0 < Y -> exists my ey, y = PyStruct.B754_finite s my ey /\
                                     Y = Z.pos my * 2 ^ (ey - c) /\
                                     in_format 24 128 (Z.pos my) ey)).
  { assert (H0 : 0 <= q * 2 ^ (e1 - c)) by (apply Z.mul_nonneg_nonneg; lia).
    destruct y as [sy|sy|sy py|sy my ey]; try discriminate; cbn [IEEE754.sign_of] in Hys;
      subst sy; cbn [IEEE754.scaled].
    - exists 0. split; [destruct s; reflexivity|]. split; [lia|]. split; [left; lia|].
      split; [reflexivity|]. lia.
    - pose proof (is_binary32_in_format s my ey Hyb) as Hfy.
      pose proof (off_cell my ey q e1 c Hcm Hq Hyb) as Hoff.
      assert (0 < Z.pos my * 2 ^ (ey - c)).
      { apply Z.mul_pos_pos; [lia|]. apply pow2_pos.
        cbn [IEEE754.is_binary32] in Hyb. apply bounded32_cases in Hyb. lia. }
      exists (Z.pos my * 2 ^ (ey - c)). split; [reflexivity|]. split; [lia|].
      split; [exact Hoff|]. split; [lia|]. intros _. eauto. }
  destruct Hmag as (Y & HYs & HY0 & Hoff & Hzero & Hpos).
  (* the value of the cast is a finite binary32 value *)
  set (y0 := PyStruct.of_spec_float
               match m3 with
               | 0 => S754_zero s
               | Z.pos p => if e3 <=? 104 then S754_finite s p e3 else S754_infinity s
               | Z.neg _ => S754_nan
               end) in *.
  assert (Hy0 : IEEE754.is_finite y0 = true /\ IEEE754.is_binary32 y0 = true /\
                IEEE754.scaled c y0 = (if s then -1 else 1) * (m3 * 2 ^ (e3 - c))).
  { subst y0. destruct m3 as [|p|p]; try lia.
    - cbn. destruct s; auto.
    - assert (He3' : (e3 <=? 104) = true) by (apply Z.leb_le; lia).
      rewrite He3'. cbn [PyStruct.of_spec_float IEEE754.is_finite IEEE754.scaled
                         IEEE754.is_binary32].
      split; [reflexivity|]. split; [|reflexivity].
      unfold bounded, canonical_mantissa.
      change (128 - 24) with 104. rewrite He3', andb_true_r. apply Z.eqb_eq.
      destruct Hfmt as [[? _] | [_ Hc]]; [lia | exact Hc]. }
  destruct Hy0 as (Hy0f & Hy0b & Hy0s).
  destruct (Hy y0 Hy0f Hy0b) as [Hle Hev]. cbv zeta in Hle, Hev.
  rewrite HYs, Hy0s, HY in Hle, Hev.
  destruct (nearest_on_grid X _ q R m2 Y Hg HR HX Hrule Hoff) as [Hle0 Hev0].
  set (Y0 := m2 * 2 ^ (e1 - c)) in *.
  assert (Hdist : Z.abs (X - Y0) = Z.abs (X - Y)) by (destruct s; lia).
  destruct (Z.eq_dec Y Y0) as [Hsame | Hdiff].
  - (* the same value *)
    subst Y0. rewrite <- HY in Hsame.
    subst y0. destruct m3 as [|p|p]; try lia.
    + cbn [PyStruct.of_spec_float]. apply Hzero. lia.
    + assert (He3' : (e3 <=? 104) = true) by (apply Z.leb_le; lia).
      rewrite He3'. cbn [PyStruct.of_spec_float].
      assert (HYpos : 0 < Y).
      { rewrite Hsame. apply Z.mul_pos_pos; [lia | apply pow2_pos; lia]. }
      destruct (Hpos HYpos) as (my & ey & -> & HYv & Hfy).
      rewrite HYv in Hsame.
      destruct (in_format_unique _ _ _ _ c Hfy Hfmt ltac:(lia) ltac:(lia) Hcm Hsame)
        as [Hmeq ->].
      injection Hmeq as ->. reflexivity.
  - (* another value as near: a tie, and both mantissas even *)
    exfalso.
    specialize (Hev0 Hdist Hdiff).
    assert (Heven_y : IEEE754.even_mantissa y = true).
    { apply Hev; [destruct s; lia|]. destruct s; lia. }
    assert (Hup : (q + 1) * 2 ^ (e1 - c) = q * 2 ^ (e1 - c) + 2 ^ (e1 - c)) by ring.
    destruct Hrule as [[Hlt Hm2] | [[Htie Hm2] | [Hgt Hm2]]].
    + subst m2. subst Y0. rewrite Hup in Hoff.
      set (A := q * 2 ^ (e1 - c)) in *. lia.
    + destruct (Z.even q) eqn:Hevq.
      * (* the cast gives [q], and [y] is [q + 1] *)
        subst m2. subst Y0. rewrite Hup in Hoff.
        assert (HYv : Y = (q + 1) * 2 ^ (e1 - c)).
        { rewrite Hup. set (A := q * 2 ^ (e1 - c)) in *. lia. }
        assert (HYp : 0 < Y).
        { rewrite HYv. apply Z.mul_pos_pos; lia. }
        destruct (Hpos HYp) as (my & ey & -> & HYv' & Hfy).
        rewrite HYv' in HYv.
        destruct (in_format_unique _ _ _ _ c Hfy (next_in_format q e1 Hq Hevq)
                    ltac:(lia) ltac:(lia) Hcm HYv) as [Hmeq _].
        cbn [IEEE754.even_mantissa] in Heven_y. rewrite Hmeq in Heven_y.
        rewrite Z.add_1_r, Z.even_succ, <- Z.negb_even, Hevq in Heven_y.
        discriminate.
      * (* the cast gives [q + 1], and [y] is [q] *)
        subst m2. subst Y0. rewrite Hup in *.
        assert (HYv : Y = q * 2 ^ (e1 - c)).
        { set (A := q * 2 ^ (e1 - c)) in *. lia. }
        assert (Hqpos : 0 < q).
        { destruct (Z.eq_dec q 0) as [->|]; [discriminate | lia]. }
        assert (HYp : 0 < Y).
        { rewrite HYv. apply Z.mul_pos_pos; lia. }
        destruct (Hpos HYp) as (my & ey & -> & HYv' & Hfy).
        rewrite HYv' in HYv.
        destruct (in_format_unique _ _ _ _ c Hfy Hq ltac:(lia) Hqpos Hcm HYv)
          as [Hmeq _].
        cbn [IEEE754.even_mantissa] in Heven_y. rewrite Hmeq, Hevq in Heven_y.
        discriminate.
    + subst m2. subst Y0. rewrite Hup in *.
      set (A := q * 2 ^ (e1 - c)) in *. lia.
Qed.

(** The conversion of IEEE 754 is the cast. *)
Lemma converts_to_unique x y :
  IEEE754.converts_to x y -> y = PyStruct.double_to_single x.
Proof.
  destruct x as [s|s|s payload|s m e]; cbn [IEEE754.converts_to].
  - intros ->. reflexivity.
  - intros ->. reflexivity.
  - intros (payload' & -> & Hb & Hmod). cbn [PyStruct.double_to_single].
    f_equal. destruct (quiet_payload_bounds payload) as [Hb' Hmod'].
    apply Pos2Z.inj.
    change (2 ^ 23) with (2 ^ 22 + 2 ^ 22) in Hb, Hb'.
    rewrite <- Hmod' in Hmod.
    pose proof (Z.div_mod (Z.pos payload') (2 ^ 22) ltac:(discriminate)) as H1.
    pose proof (Z.div_mod (Z.pos (PyStruct.quiet_payload payload)) (2 ^ 22)
                  ltac:(discriminate)) as H2.
    pose proof (Z.mod_pos_bound (Z.pos payload') (2 ^ 22) ltac:(reflexivity)) as H3.
    pose proof (Z.mod_pos_bound (Z.pos (PyStruct.quiet_payload payload)) (2 ^ 22)
                  ltac:(reflexivity)) as H4.
    change (2 ^ 22) with 4194304 in *. nia.
  - intros [[Hbig ->] | [Hin Hnear]].
    + destruct (double_to_single_rounds s m e) as [[_ ->] | [Hin _]];
        [reflexivity | contradiction].
    + apply nearest_binary32_unique; assumption.
Qed.

(** * Further properties of the encoder *)

(** X14.  Two lists of floats have the same encoding exactly when they
    have the same length and, component by component, the same binary32
    value by IEEE 754 (for a NaN: the same sign and the same upper
    fraction bits): the encoding loses the rounding and nothing else. *)
Theorem serialize_f32_eq_iff :
  forall v1 v2 : list PyStruct.float,
    serialize_f32 v1 = serialize_f32 v2 <->
    Forall2 (fun x1 x2 => exists y, IEEE754.converts_to x1 y /\
                                    IEEE754.converts_to x2 y)
            v1 v2.
Proof.
  intros v1 v2. rewrite serialize_f32_eq_cast. split.
  - revert v2. induction v1 as [|x1 v1 IH]; intros [|x2 v2] H; cbn [map] in H;
      try discriminate; constructor.
    + injection H as Hx _. exists (PyStruct.double_to_single x1).
      split; [apply double_to_single_converts|].
      rewrite Hx. apply double_to_single_converts.
    + injection H as _ Hv. apply IH. exact Hv.
  - induction 1 as [|x1 x2 v1 v2 (y & H1 & H2) _ IH]; [reflexivity|].
    cbn [map]. rewrite IH.
    rewrite <- (converts_to_unique x1 y H1), <- (converts_to_unique x2 y H2).
    reflexivity.
Qed.



(** * The store *)

Section StoreFacts.

Context {P : Packages}.

(** [_initialize] changes no object: with the flag unset it raises at the
    assignment to [db], with the flag set it does nothing. *)
Lemma _initialize_eq (self : SQLiteVectorStore) :
  _initialize self
  = (if _is_initialized self then OK tt
     else Raise (ValueError "'SQLiteVectorStore' object has no field 'db'"),
     self).
Proof.
  destruct self as [st d cs init conn]. destruct init; reflexivity.
Qed.

Lemma client_uninitialized (self : SQLiteVectorStore) :
  _is_initialized self = false -> client self = (OK None, self).
Proof.
  destruct self as [st d cs init conn]. cbn. intros ->. reflexivity.
Qed.

(** Without a connection, [add] raises once the tuples are made and
    leaves the object as it was. *)
Lemma add_unset (nodes : list BaseNode) (kwargs : Kwargs) (self : SQLiteVectorStore) :
  db self = None -> add nodes kwargs self = (Raise (add_raises nodes), self).
Proof.
  intros Hdb. unfold add, add_raises, bind, lift.
  destruct (items_of nodes) as [items|e]; [|reflexivity].
  unfold with_db, bind, get_db. rewrite Hdb. reflexivity.
Qed.

Lemma after_unset (c : call) (self : SQLiteVectorStore) :
  db self = None -> after c self = self.
Proof.
  intros Hdb. destruct c; cbn [after]; try reflexivity.
  - rewrite _initialize_eq. reflexivity.
  - destruct self as [st d cs init conn]. cbn in Hdb. subst conn.
    destruct init; reflexivity.
  - rewrite add_unset by assumption. reflexivity.
Qed.

Lemma run_unset (calls : list call) (self : SQLiteVectorStore) :
  db self = None -> run calls self = self.
Proof.
  intros Hdb. induction calls as [|c calls IH]; [reflexivity|].
  cbn [run]. rewrite after_unset by assumption. exact IH.
Qed.

(** Whatever is called on a constructed store, it stays the constructed
    store. *)
Lemma run_new (calls : list call) (connection_string : string) (embed_dim : Z) :
  run calls (__init__ connection_string embed_dim)
  = __init__ connection_string embed_dim.
Proof. apply run_unset. reflexivity. Qed.

Lemma not_raised_by_encoder_AttributeError msg :
  ~ raised_by_encoder (AttributeError msg).
Proof.
  intros [[v|] H]; cbn in H.
  - rewrite serialize_f32_eq in H. discriminate.
  - discriminate.
Qed.

End StoreFacts.

(** * The claims about the store *)

(** C5.  Each of the operations that are not implemented, [query],
    [get_nodes], [delete] (by reference document), [delete_nodes] and
    [clear], raises [NotImplementedError] on every input and on every store
    object, and leaves the object as it was; none returns a value. *)
Theorem unimplemented_operations_raise {P : Packages} :
  forall (self : SQLiteVectorStore) (node_ids : option (list string))
         (filters : option MetadataFilters) (ref_doc_id : string)
         (kwargs : Kwargs) (q : VectorStoreQuery),
    (exists msg, query q kwargs self = (Raise (NotImplementedError msg), self)) /\
    (exists msg, get_nodes node_ids filters self = (Raise (NotImplementedError msg), self)) /\
    (exists msg, delete ref_doc_id kwargs self = (Raise (NotImplementedError msg), self)) /\
    (exists msg, delete_nodes node_ids filters kwargs self
                 = (Raise (NotImplementedError msg), self)) /\
    (exists msg, clear self = (Raise (NotImplementedError msg), self)).
Proof.
  intros. repeat split; eexists; reflexivity.
Qed.

(** C2.  [_initialize] opens no database for the store: on a constructed
    store, whatever its connection string (the in-memory sentinel or a
    path) and its width, the call raises [ValueError] at the assignment of
    the connection, which it has made of the literal [":memory:"], to the
    attribute [db] that the class does not declare; the store is as it
    was, without a connection and uninitialized.  The specification asks
    for the database that the connection string names. *)
Theorem initialize_opens_no_database {P : Packages} :
  forall (connection_string : string) (embed_dim : Z),
    (exists msg,
       _initialize (__init__ connection_string embed_dim)
       = (Raise (ValueError msg), __init__ connection_string embed_dim)) /\
    db (snd (_initialize (__init__ connection_string embed_dim))) = None /\
    _is_initialized (snd (_initialize (__init__ connection_string embed_dim))) = false.
Proof.
  intros cs d. rewrite _initialize_eq. cbn.
  split; [eexists; reflexivity | split; reflexivity].
Qed.

Example initialize_on_disk :
  _initialize Sample.on_disk
  = (Raise (ValueError "'SQLiteVectorStore' object has no field 'db'"), Sample.on_disk) /\
  Sample.attempted_on_disk = Sample.on_disk.
Proof. split; reflexivity. Qed.

(** C3.  [add] does not initialize: on a constructed store, whatever its
    configuration and the nodes, it raises and the store stays
    uninitialized.  It raises [AttributeError] for the attribute [db],
    unless [json.dumps] has refused the metadata of a node before, whose
    exception it then is.  The specification asks for the first [add] to
    initialize the store. *)
Theorem add_on_new_store_raises {P : Packages} :
  forall (connection_string : string) (embed_dim : Z)
         (nodes : list BaseNode) (kwargs : Kwargs),
    add nodes kwargs (__init__ connection_string embed_dim)
    = (Raise (match items_of nodes with
              | OK _ => AttributeError "db"
              | Raise e => e
              end),
       __init__ connection_string embed_dim) /\
    _is_initialized (__init__ connection_string embed_dim) = false.
Proof.
  intros. split; [|reflexivity]. apply add_unset. reflexivity.
Qed.

Example add_on_fresh :
  add (P := Sample.packages) [Sample.n1] tt Sample.fresh
  = (Raise (AttributeError "db"), Sample.fresh) /\
  add (P := Sample.packages) [Sample.n1; Sample.not_json] tt Sample.fresh
  = (Raise (TypeError "Object of type set is not JSON serializable"), Sample.fresh).
Proof. split; reflexivity. Qed.

(** C1.  No store is ever freshly initialized, and [add] returns no keys:
    on a constructed store, [_initialize] raises [ValueError] and leaves
    the store as it was, and [add] on the store after that call raises
    ([AttributeError] for [db], or the exception of [json.dumps]), whatever
    the nodes.  The specification asks for the keys of the inserted rows. *)
Theorem add_after_initialize_returns_no_keys {P : Packages} :
  forall (connection_string : string) (embed_dim : Z)
         (nodes : list BaseNode) (kwargs : Kwargs),
    (exists msg,
       _initialize (__init__ connection_string embed_dim)
       = (Raise (ValueError msg), __init__ connection_string embed_dim)) /\
    add nodes kwargs (snd (_initialize (__init__ connection_string embed_dim)))
    = (Raise (match items_of nodes with
              | OK _ => AttributeError "db"
              | Raise e => e
              end),
       __init__ connection_string embed_dim) /\
    (forall ids self',
       add nodes kwargs (snd (_initialize (__init__ connection_string embed_dim)))
       <> (OK ids, self')).
Proof.
  intros cs d nodes kwargs. rewrite _initialize_eq. cbn [snd __init__ _is_initialized].
  split; [eexists; reflexivity|].
  rewrite (add_unset nodes kwargs (__init__ cs d) eq_refl).
  split; [reflexivity | discriminate].
Qed.

Example add_three_nodes_after_initialize :
  add (P := Sample.packages) [Sample.n1; Sample.n2; Sample.n3] tt Sample.attempted
  = (Raise (AttributeError "db"), Sample.fresh).
Proof. reflexivity. Qed.

(** C8.  A second [_initialize] is no no-op: on a constructed store the
    first call raises [ValueError] and leaves the flag unset, so the guard
    does not hold the second call back, which runs the body again, makes
    a connection again and raises the same; so does every later call.
    The specification asks for no error. *)
Theorem initialize_twice_raises_twice {P : Packages} :
  forall (calls : list call) (connection_string : string) (embed_dim : Z),
    exists msg,
      _initialize (__init__ connection_string embed_dim)
      = (Raise (ValueError msg), __init__ connection_string embed_dim) /\
      _initialize (snd (_initialize (__init__ connection_string embed_dim)))
      = (Raise (ValueError msg), __init__ connection_string embed_dim) /\
      _initialize (run calls (__init__ connection_string embed_dim))
      = (Raise (ValueError msg), __init__ connection_string embed_dim).
Proof.
  intros calls cs d. rewrite run_new, !_initialize_eq. cbn.
  eexists. repeat split.
Qed.

(** C4, amended.  The claim as stated fails: on a store of width 3, after
    a call to [_initialize], [add] of a node with two components raises
    [AttributeError], which is no exception of the encoding, and the
    encoding of the two components returns eight bytes. *)
Lemma add_short_embedding_no_encoding_error :
  add (P := Sample.packages) [Sample.short] tt Sample.attempted
  = (Raise (AttributeError "db"), Sample.attempted) /\
  ~ raised_by_encoder (AttributeError "db") /\
  has_other_width (embed_dim Sample.attempted) Sample.short /\
  exists b : bytes,
    serialize_embedding (embedding Sample.short) = OK b /\ length b = 8%nat.
Proof.
  split; [reflexivity|]. split; [apply not_raised_by_encoder_AttributeError|].
  split; [eexists; split; [reflexivity | discriminate]|].
  eexists. split; [vm_compute; reflexivity | reflexivity].
Qed.

(** C4, amended.  On every store that calls can make of a constructed one,
    every call to [add], one with a node whose embedding has another
    length than [embed_dim] included, fails and writes no row: it raises
    before any embedding is encoded, [AttributeError] for [db] (or the
    exception of [json.dumps]), which is no exception of the encoding, and
    the store has no row.  The encoding itself accepts every length: it
    returns four bytes for each component of the embedding of a node. *)
Theorem add_fails_before_encoding {P : Packages} :
  forall (calls : list call) (connection_string : string) (embed_dim : Z)
         (nodes : list BaseNode) (kwargs : Kwargs),
    add nodes kwargs (run calls (__init__ connection_string embed_dim))
    = (Raise (match items_of nodes with
              | OK _ => AttributeError "db"
              | Raise e => e
              end),
       run calls (__init__ connection_string embed_dim)) /\
    ~ raised_by_encoder (AttributeError "db") /\
    committed_rows (snd (add nodes kwargs (run calls (__init__ connection_string embed_dim))))
    = [] /\
    Forall (fun node =>
              forall v, embedding node = Some v ->
                exists b, serialize_embedding (embedding node) = OK b /\
                          length b = (4 * length v)%nat)
           nodes.
Proof.
  intros calls cs d nodes kwargs. rewrite run_new.
  rewrite (add_unset nodes kwargs (__init__ cs d) eq_refl).
  split; [reflexivity|]. split; [apply not_raised_by_encoder_AttributeError|].
  split; [reflexivity|].
  apply Forall_forall. intros node _ v ->. cbn [serialize_embedding].
  rewrite serialize_f32_eq. eexists. split; [reflexivity|].
  apply flat_map_np_float_length.
Qed.

(** C9.  [add] inserts and commits no row at all: on every store that
    calls can make of a constructed one, also after a call to
    [_initialize], it raises at [with self.db], before the loop that
    inserts and commits row by row, and the store has no connection and no
    row afterwards, whatever the nodes.  The specification asks for the
    rows before a failure to be inserted and committed. *)
Theorem add_inserts_no_row {P : Packages} :
  forall (calls : list call) (connection_string : string) (embed_dim : Z)
         (nodes : list BaseNode) (kwargs : Kwargs),
    (exists e,
       add nodes kwargs
           (run (call_initialize :: calls) (__init__ connection_string embed_dim))
       = (Raise e, __init__ connection_string embed_dim)) /\
    db (snd (add nodes kwargs
               (run (call_initialize :: calls) (__init__ connection_string embed_dim))))
    = None /\
    committed_rows
      (snd (add nodes kwargs
              (run (call_initialize :: calls) (__init__ connection_string embed_dim))))
    = [].
Proof.
  intros calls cs d nodes kwargs. rewrite run_new.
  rewrite (add_unset nodes kwargs (__init__ cs d) eq_refl).
  split; [eexists; reflexivity | split; reflexivity].
Qed.

Example add_with_failure_partway :
  add (P := Sample.packages) [Sample.n1; Sample.short; Sample.n3] tt Sample.attempted
  = (Raise (AttributeError "db"), Sample.fresh) /\
  committed_rows Sample.attempted = [].
Proof. split; reflexivity. Qed.

(** C10.  On every store that calls can make of a constructed one, the
    property [client] returns [None] and leaves the store as it was: it
    raises nothing and initializes nothing (it changes no object at all).
    Every such store is uninitialized, since [_initialize] raises on it:
    there is no store on which initialization has succeeded, and none on
    which [client] returns a connection. *)
Theorem client_returns_None {P : Packages} :
  forall (calls : list call) (connection_string : string) (embed_dim : Z),
    client (run calls (__init__ connection_string embed_dim))
    = (OK None, run calls (__init__ connection_string embed_dim)) /\
    _is_initialized (run calls (__init__ connection_string embed_dim)) = false /\
    (exists msg,
       _initialize (run calls (__init__ connection_string embed_dim))
       = (Raise (ValueError msg), run calls (__init__ connection_string embed_dim))) /\
    (forall self : SQLiteVectorStore, snd (client self) = self).
Proof.
  intros calls cs d. rewrite run_new. split; [reflexivity|].
  split; [reflexivity|]. split; [rewrite _initialize_eq; eexists; reflexivity|].
  intros [st w s init [c|]]; destruct init; reflexivity.
Qed.

Example client_after_initialize :
  client (run (P := Sample.packages) [call_initialize] Sample.fresh)
  = (OK None, Sample.fresh).
Proof. reflexivity. Qed.

(** * Further properties of the store *)

(** X8.  The configuration of a store does not change: after any calls,
    [connection_string] and [embed_dim] are those given to the
    constructor, and [stores_text] is true. *)
Theorem configuration_is_immutable {P : Packages} :
  forall (calls : list call) (connection_string0 : string) (embed_dim0 : Z),
    connection_string (run calls (__init__ connection_string0 embed_dim0))
    = connection_string0 /\
    embed_dim (run calls (__init__ connection_string0 embed_dim0)) = embed_dim0 /\
    stores_text (run calls (__init__ connection_string0 embed_dim0)) = true.
Proof.
  intros calls cs d. rewrite run_new. repeat split.
Qed.

